(** * anime.py: the catalog / cross-reference / episode pipeline

    A shallow embedding of [anime.py] and the properties of its
    components.  The script talks to three external parties (the Jikan
    catalog API, the HiAnime site behind a rewriting proxy, the local
    file system); they appear here as a [World] of oracles and a [State]
    that records every request, pause, console line and file written. *)

From Stdlib Require Import ZArith Lia Ascii String DecimalString DecimalPos.
From stdpp Require Import base option list strings gmap sorting.

Local Open Scope string_scope.
Local Open Scope list_scope.
Local Open Scope Z_scope.
Local Set Warnings "-register-all".

(** ** Python values

    Every value the script handles comes out of a JSON document or is
    built from such values, so one type covers them.  A [str] is a
    [string] whose characters are the code points below 256; a Python
    [float] is identified by its [repr]. *)

Inductive json : Type :=
| JNull
| JBool (b : bool)
| JInt (z : Z)
| JFloat (repr : string)
| JStr (s : string)
| JArr (items : list json)
| JObj (fields : list (string * json)).

(** ** Exceptions, in the classes the script's handlers distinguish *)

Inductive exn : Type :=
| ConnectionError          (* requests.RequestException: transport *)
| HTTPError                (* requests.RequestException: raise_for_status *)
| RequestsJSONDecodeError  (* requests.RequestException: Response.json() *)
| JSONDecodeError          (* json.JSONDecodeError, raised by json.loads *)
| KeyError (key : string)
| TypeError
| AttributeError
| ValueError
| OSError.

(** [except requests.RequestException] *)
Definition is_RequestException (e : exn) : bool :=
  match e with
  | ConnectionError | HTTPError | RequestsJSONDecodeError => true
  | _ => false
  end.

(** [except json.JSONDecodeError] *)
Definition is_JSONDecodeError (e : exn) : bool :=
  match e with
  | JSONDecodeError => true
  | _ => false
  end.

Inductive result (A : Type) : Type :=
| Ok (a : A)
| Raise (e : exn).
Arguments Ok {A} a.
Arguments Raise {A} e.

(** ** The observable state *)

(** Console lines, by the [print] statement that produced them. *)
Inductive message : Type :=
| MsgProxyError (attempt retries : Z) (url : string)
| MsgProxyFailed (retries : Z) (url : string)
| MsgSaved (filename folder : string)
| MsgJikanPageFailed (page : Z)
| MsgPage (page : Z) (total : Z)
| MsgJikanDetailsFailed (mal_id : json)
| MsgEpisodeJSONFailed (anime_data_id : string)
| MsgNoMatch (title : json)
| MsgDone (title : json) (eps : Z).

Inductive event : Type :=
| EvGet (url : string)
| EvSleep (seconds : Z)
| EvPrint (m : message).

Inductive fsnode : Type :=
| FsDir
| FsFile (content : string).

(** A path is the list of its components, as the kernel resolves it
    when no symbolic link and no [..] is involved. *)
Record State : Type := mkState {
  trace : list event;
  fs : gmap (list string) fsnode
}.

(** ** The error-and-state monad of the script *)

Definition M (A : Type) : Type := State -> result A * State.

Definition ret {A} (a : A) : M A := fun s => (Ok a, s).

Definition raise {A} (e : exn) : M A := fun s => (Raise e, s).

Definition bind {A B} (m : M A) (k : A -> M B) : M B :=
  fun s =>
    match m s with
    | (Ok a, s') => k a s'
    | (Raise e, s') => (Raise e, s')
    end.

(** [try: body  except <class>: handler]; the effects of [body] up to
    the exception stay. *)
Definition try_except {A} (body : M A) (catches : exn -> bool)
    (handler : exn -> M A) : M A :=
  fun s =>
    match body s with
    | (Ok a, s') => (Ok a, s')
    | (Raise e, s') => if catches e then handler e s' else (Raise e, s')
    end.

Definition lift {A} (r : result A) : M A := fun s => (r, s).

Declare Scope py_scope.
Delimit Scope py_scope with py.
Notation "'do' x <- m ; k" := (bind m (fun x => k))
  (at level 10, x name, m at level 100, k at level 200) : py_scope.
Notation "m ;; k" := (bind m (fun _ => k))
  (at level 100, k at level 200, right associativity) : py_scope.
Local Open Scope py_scope.

Definition emit (e : event) : M unit :=
  fun s => (Ok tt, mkState (trace s ++ [e]) (fs s)).

Definition print (m : message) : M unit := emit (EvPrint m).
Definition sleep (seconds : Z) : M unit := emit (EvSleep seconds).

(** ** The world outside *)

(** An element as the script looks at it: its own attributes
    ([a.get(..)]), the attributes of its first [img] descendant
    ([a.select_one("img")]) and the text of its first descendant of
    class [ep-name] ([a.select_one(".ep-name").text]). *)
Record Tag : Type := mkTag {
  tag_attrs : list (string * string);
  tag_img : option (list (string * string));
  tag_ep_name : option string
}.

Inductive http_outcome : Type :=
| TransportFailure
| HttpResponse (status : Z) (text : string).

Record World : Type := mkWorld {
  (** what the network answers to the [n]-th GET of the run, at [url] *)
  http : string -> nat -> http_outcome;
  (** [json.loads] / [Response.json()] on a body *)
  json_loads : string -> option json;
  (** [BeautifulSoup(html, "html.parser").select(selector)] *)
  soup_select : string -> string -> list Tag;
  (** [str()] of a list or a dict *)
  str_container : json -> string
}.

(** ** Strings, as Python treats them *)

Definition code (a : ascii) : N := N_of_ascii a.

(** [str.isspace] on one character *)
Definition py_isspace (a : ascii) : bool :=
  let c := code a in
  (((9 <=? c) && (c <=? 13)) || ((28 <=? c) && (c <=? 32))
   || (c =? 133) || (c =? 160))%N.

Fixpoint lstrip (s : string) : string :=
  match s with
  | String a s' => if py_isspace a then lstrip s' else s
  | EmptyString => EmptyString
  end.

Fixpoint rstrip (s : string) : string :=
  match s with
  | String a s' =>
      match rstrip s' with
      | EmptyString => if py_isspace a then EmptyString else String a EmptyString
      | r => String a r
      end
  | EmptyString => EmptyString
  end.

(** [s.strip()] *)
Definition strip (s : string) : string := lstrip (rstrip s).

Definition lower_char (a : ascii) : ascii :=
  let c := code a in
  if (((65 <=? c) && (c <=? 90))
      || ((192 <=? c) && (c <=? 222) && negb (c =? 215)))%N
  then ascii_of_N (c + 32) else a.

Fixpoint map_chars (f : ascii -> ascii) (s : string) : string :=
  match s with
  | String a s' => String (f a) (map_chars f s')
  | EmptyString => EmptyString
  end.

(** [s.lower()] *)
Definition lower (s : string) : string := map_chars lower_char s.

(** [s.replace(' ', '_')] *)
Definition replace_space_underscore (s : string) : string :=
  map_chars (fun a => if Ascii.eqb a " " then "_"%char else a) s.

(** [needle in hay] for two [str] *)
Fixpoint str_contains (needle hay : string) : bool :=
  String.prefix needle hay
  || match hay with
     | String _ hay' => str_contains needle hay'
     | EmptyString => false
     end.

Definition hex_digit (n : N) : ascii :=
  ascii_of_N (if (n <? 10)%N then 48 + n else 55 + n).

Definition percent_byte (b : N) : string :=
  String "%" (String (hex_digit (b / 16)) (String (hex_digit (b mod 16)) EmptyString)).

Definition is_unreserved (a : ascii) : bool :=
  let c := code a in
  (((65 <=? c) && (c <=? 90)) || ((97 <=? c) && (c <=? 122))
   || ((48 <=? c) && (c <=? 57))
   || (c =? 95) || (c =? 46) || (c =? 45) || (c =? 126))%N.

(** [requests.utils.quote(url, safe="")]: the UTF-8 bytes of every
    character outside [A-Za-z0-9_.-~] are percent-encoded. *)
Fixpoint quote (url : string) : string :=
  match url with
  | String a rest =>
      (if is_unreserved a then String a EmptyString
       else let c := code a in
            if (c <? 128)%N then percent_byte c
            else percent_byte (192 + c / 64) +:+ percent_byte (128 + c mod 64))
      +:+ quote rest
  | EmptyString => EmptyString
  end.

(** [str(n)] for an [int] *)
Definition str_of_int (z : Z) : string := NilZero.string_of_int (Z.to_int z).

(** The white space [int()] skips around a literal. *)
Definition int_isspace (a : ascii) : bool :=
  let c := code a in
  (((9 <=? c) && (c <=? 13)) || (c =? 32) || (c =? 133) || (c =? 160))%N.

Fixpoint int_lstrip (s : string) : string :=
  match s with
  | String a s' => if int_isspace a then int_lstrip s' else s
  | EmptyString => EmptyString
  end.

Fixpoint int_rstrip (s : string) : string :=
  match s with
  | String a s' =>
      match int_rstrip s' with
      | EmptyString => if int_isspace a then EmptyString else String a EmptyString
      | r => String a r
      end
  | EmptyString => EmptyString
  end.

Definition digit_of (a : ascii) : option Z :=
  let c := code a in
  if ((48 <=? c) && (c <=? 57))%N then Some (Z.of_N (c - 48)) else None.

(** Decimal digits, single underscores allowed between two digits. *)
Fixpoint parse_digits (s : string) (acc : Z) (after_digit : bool) : option Z :=
  match s with
  | String a s' =>
      if Ascii.eqb a "_"
      then if after_digit then parse_digits s' acc false else None
      else match digit_of a with
           | Some d => parse_digits s' (10 * acc + d) true
           | None => None
           end
  | EmptyString => if after_digit then Some acc else None
  end.

(** [int(s)] for a [str]; [None] stands for [ValueError].  (CPython
    3.11 and later also refuse literals of more than 4300 digits.) *)
Definition int_of_str (s : string) : option Z :=
  match int_lstrip (int_rstrip s) with
  | String "+" digits => parse_digits digits 0 false
  | String "-" digits => Z.opp <$> parse_digits digits 0 false
  | digits => parse_digits digits 0 false
  end.

(** [os.path.join(a, b)] (posixpath) *)
Definition starts_with_slash (s : string) : bool :=
  match s with String "/" _ => true | _ => false end.

Fixpoint ends_with_slash (s : string) : bool :=
  match s with
  | String a EmptyString => Ascii.eqb a "/"
  | String _ s' => ends_with_slash s'
  | EmptyString => false
  end.

Definition path_join (a b : string) : string :=
  if starts_with_slash b then b
  else if String.eqb a "" || ends_with_slash a then a +:+ b
  else a +:+ "/" +:+ b.

(** ** Operations on Python values *)

Fixpoint assoc {A} (k : string) (kv : list (string * A)) : option A :=
  match kv with
  | (k', v) :: rest => if String.eqb k k' then Some v else assoc k rest
  | [] => None
  end.

(** [bool(v)] *)
Definition truthy (v : json) : bool :=
  match v with
  | JNull => false
  | JBool b => b
  | JInt z => negb (z =? 0)
  | JFloat r => negb (String.eqb r "0.0" || String.eqb r "-0.0")
  | JStr s => negb (String.eqb s "")
  | JArr items => match items with [] => false | _ => true end
  | JObj fields => match fields with [] => false | _ => true end
  end.

(** [v[key]] for a [str] key *)
Definition getitem (v : json) (key : string) : result json :=
  match v with
  | JObj fields =>
      match assoc key fields with
      | Some x => Ok x
      | None => Raise (KeyError key)
      end
  | _ => Raise TypeError
  end.

(** [v.get(key)] and [v.get(key, default)] *)
Definition dict_get (v : json) (key : string) (default : json) : result json :=
  match v with
  | JObj fields =>
      Ok match assoc key fields with
         | Some x => x
         | None => default
         end
  | _ => Raise AttributeError
  end.

Fixpoint chars (s : string) : list json :=
  match s with
  | String a s' => JStr (String a EmptyString) :: chars s'
  | EmptyString => []
  end.

(** [for x in v] *)
Definition iterate (v : json) : result (list json) :=
  match v with
  | JArr items => Ok items
  | JObj fields => Ok (map (fun kv => JStr kv.1) fields)
  | JStr s => Ok (chars s)
  | _ => Raise TypeError
  end.

Definition is_str (key : string) (v : json) : bool :=
  match v with
  | JStr s => String.eqb s key
  | _ => false
  end.

(** [key in v] for a [str] key *)
Definition contains (key : string) (v : json) : result bool :=
  match v with
  | JObj fields => Ok (match assoc key fields with Some _ => true | None => false end)
  | JArr items => Ok (existsb (is_str key) items)
  | JStr s => Ok (str_contains key s)
  | _ => Raise TypeError
  end.

(** [str(v)], as an f-string interpolates it *)
Definition py_str (w : World) (v : json) : string :=
  match v with
  | JStr s => s
  | JInt z => str_of_int z
  | JFloat r => r
  | JNull => "None"
  | JBool true => "True"
  | JBool false => "False"
  | _ => str_container w v
  end.

(** An optional attribute or missing element: [None] or a [str]. *)
Definition json_of_opt (o : option string) : json :=
  match o with
  | Some s => JStr s
  | None => JNull
  end.


(** ** Serialisation: [json.dumps(v, indent=2, ensure_ascii=False)] *)

Definition hex_digit_lower (n : N) : ascii :=
  ascii_of_N (if (n <? 10)%N then 48 + n else 87 + n).

Definition double_quote : string := String (ascii_of_N 34) EmptyString.
Definition newline : string := String (ascii_of_N 10) EmptyString.

Definition escape_char (a : ascii) : string :=
  let c := code a in
  if (c =? 34)%N then "\" +:+ double_quote
  else if (c =? 92)%N then "\\"
  else if (c =? 10)%N then "\n"
  else if (c =? 13)%N then "\r"
  else if (c =? 9)%N then "\t"
  else if (c =? 8)%N then "\b"
  else if (c =? 12)%N then "\f"
  else if (c <? 32)%N
       then "\u00" +:+ String (hex_digit_lower (c / 16))
                        (String (hex_digit_lower (c mod 16)) EmptyString)
  else String a EmptyString.

Fixpoint escape (s : string) : string :=
  match s with
  | String a s' => escape_char a +:+ escape s'
  | EmptyString => EmptyString
  end.

Definition json_string (s : string) : string :=
  double_quote +:+ escape s +:+ double_quote.

Definition float_text (repr : string) : string :=
  if String.eqb repr "nan" then "NaN"
  else if String.eqb repr "inf" then "Infinity"
  else if String.eqb repr "-inf" then "-Infinity"
  else repr.

Fixpoint join (sep : string) (l : list string) : string :=
  match l with
  | [] => EmptyString
  | [x] => x
  | x :: rest => x +:+ sep +:+ join sep rest
  end.

Fixpoint dumps (indent : string) (v : json) : string :=
  let inner := "  " +:+ indent in
  let sep := "," +:+ newline +:+ inner in
  match v with
  | JNull => "null"
  | JBool true => "true"
  | JBool false => "false"
  | JInt z => str_of_int z
  | JFloat r => float_text r
  | JStr s => json_string s
  | JArr [] => "[]"
  | JArr items =>
      "[" +:+ newline +:+ inner +:+ join sep (map (dumps inner) items)
      +:+ newline +:+ indent +:+ "]"
  | JObj [] => "{}"
  | JObj fields =>
      "{" +:+ newline +:+ inner
      +:+ join sep (map (fun '(k, x) => json_string k +:+ ": " +:+ dumps inner x) fields)
      +:+ newline +:+ indent +:+ "}"
  end.

Definition json_dumps (v : json) : string := dumps "" v.

(** Pure computations that may raise use stdpp's monad notation. *)
#[global] Instance result_ret : MRet result := @Ok.
#[global] Instance result_bind : MBind result :=
  fun A B f r => match r with Ok a => f a | Raise e => Raise e end.

#[global] Instance result_fmap : FMap result :=
  fun A B f r => match r with Ok a => Ok (f a) | Raise e => Raise e end.

(** ** The file system *)

Fixpoint split_slash (s : string) : list string :=
  match s with
  | String a s' =>
      if Ascii.eqb a "/" then EmptyString :: split_slash s'
      else match split_slash s' with
           | c :: cs => String a c :: cs
           | [] => [String a EmptyString]
           end
  | EmptyString => [EmptyString]
  end.

Definition is_name (c : string) : bool :=
  negb (String.eqb c "" || String.eqb c ".").

Definition components (path : string) : list string :=
  (if starts_with_slash path then ["/"] else [])
  ++ List.filter is_name (split_slash path).

(** The working directory and the root are always there. *)
Definition is_root (p : list string) : bool :=
  match p with
  | [] => true
  | [c] => String.eqb c "/"
  | _ => false
  end.

Definition is_dir (m : gmap (list string) fsnode) (p : list string) : bool :=
  is_root p || match m !! p with Some FsDir => true | _ => false end.

(** [mkdir] of every missing directory along [todo], below [base]. *)
Fixpoint mkdirs (base todo : list string) : M unit :=
  match todo with
  | c :: rest =>
      let p := (base ++ [c]) in
      fun s =>
        if is_root p then mkdirs p rest s
        else match fs s !! p with
             | Some (FsFile _) => (Raise OSError, s)
             | Some FsDir => mkdirs p rest s
             | None => mkdirs p rest (mkState (trace s) (<[p := FsDir]> (fs s)))
             end
  | [] => ret tt
  end.

(** [os.makedirs(folder, exist_ok=True)] *)
Definition os_makedirs (folder : string) : M unit :=
  if String.eqb folder "" then raise OSError
  else mkdirs [] (components folder).

(** The path names a directory whatever the file system holds:
    it is empty or its last segment is empty or a dot. *)
Definition names_directory (path : string) : bool :=
  match last (split_slash path) with
  | Some c => negb (is_name c)
  | None => true
  end.

(** [with open(path, "w", encoding="utf-8") as f: f.write(content)] *)
Definition write_file (path content : string) : M unit :=
  fun s =>
    let p := components path in
    if names_directory path || is_root p || negb (is_dir (fs s) (removelast p))
    then (Raise OSError, s)
    else match fs s !! p with
         | Some FsDir => (Raise OSError, s)
         | _ => (Ok tt, mkState (trace s) (<[p := FsFile content]> (fs s)))
         end.

(** ** The network *)

Definition is_get (e : event) : bool :=
  match e with
  | EvGet _ => true
  | _ => false
  end.

Definition gets (t : list event) : list event := List.filter is_get t.

(** [requests.get(url)]: the response's status and text *)
Definition requests_get (w : World) (url : string) : M (Z * string) :=
  fun s =>
    let s' := mkState (trace s ++ [EvGet url]) (fs s) in
    match http w url (length (gets (trace s))) with
    | TransportFailure => (Raise ConnectionError, s')
    | HttpResponse status text => (Ok (status, text), s')
    end.

(** [res.raise_for_status()] *)
Definition raise_for_status (res : Z * string) : M unit :=
  if (400 <=? res.1) && (res.1 <? 600) then raise HTTPError else ret tt.

(** [res.json()] *)
Definition response_json (w : World) (res : Z * string) : M json :=
  match json_loads w res.2 with
  | Some v => ret v
  | None => raise RequestsJSONDecodeError
  end.

(** [range(lo, hi)] *)
Definition py_range (lo hi : Z) : list Z :=
  map (fun i => lo + Z.of_nat i) (seq 0 (Z.to_nat (hi - lo))).

(** [len(l)] *)
Definition len {A} (l : list A) : Z := Z.of_nat (length l).

(** ** anime.py *)

(** *** CONFIG *)

Definition OUTPUT_DIR : string := "anime_data".
Definition PROXY : string := "https://tv-stream-proxy.onrender.com/proxy?url=".
Definition HIANIME_HOST : string := "https://hianimez.is".
Definition JIKAN_BASE : string := "https://api.jikan.moe/v4".

(** *** HELPERS *)

(** The body of the [for] loop of [proxy_get]: [Some text] when the
    [try] block returns, [None] when the handler ran. *)
Definition proxy_get_attempt (w : World) (url : string) (retries delay attempt : Z)
    : M (option string) :=
  try_except
    (do res <- requests_get w (PROXY +:+ quote url);
     raise_for_status res;;
     ret (Some res.2))
    is_RequestException
    (fun _ =>
       print (MsgProxyError attempt retries url);;
       sleep delay;;
       ret None).

Fixpoint proxy_get_loop (w : World) (url : string) (retries delay : Z)
    (attempts : list Z) : M (option string) :=
  match attempts with
  | attempt :: rest =>
      do r <- proxy_get_attempt w url retries delay attempt;
      match r with
      | Some text => ret (Some text)
      | None => proxy_get_loop w url retries delay rest
      end
  | [] =>
      print (MsgProxyFailed retries url);;
      ret None
  end.

Definition proxy_get (w : World) (url : string) (retries delay : Z) : M (option string) :=
  proxy_get_loop w url retries delay (py_range 1 (retries + 1)).

Definition save_json (data : json) (folder filename : string) : M unit :=
  os_makedirs folder;;
  let path := path_join folder filename in
  write_file path (json_dumps data);;
  print (MsgSaved filename folder).

(** *** JIKAN *)

(** [{"mal_id": ..., "title": ...}] *)
Record CatalogEntry : Type := mkEntry {
  e_mal_id : json;
  e_title : json
}.

(** [{"mal_id": a["mal_id"], "title": a["title"]}] *)
Definition entry_of (a : json) : result CatalogEntry :=
  mal_id ← getitem a "mal_id";
  title ← getitem a "title";
  mret (mkEntry mal_id title).

Definition page_url (page : Z) : string :=
  JIKAN_BASE +:+ "/anime?page=" +:+ str_of_int page +:+ "&limit=25&order_by=mal_id".

(** [if "data" not in res or not res["data"]] *)
Definition page_is_empty (res : json) : result bool :=
  has ← contains "data" res;
  if negb has then mret true
  else data ← getitem res "data"; mret (negb (truthy data)).

(** The [while True] loop of [fetch_all_anime]; [fuel] bounds the
    number of iterations, [None] is the answer of a loop cut short. *)
Fixpoint fetch_all_anime_loop (w : World) (limit : Z) (fuel : nat)
    (page : Z) (anime_list : list CatalogEntry) : M (option (list CatalogEntry)) :=
  match fuel with
  | S fuel' =>
      do fetched <-
        try_except
          (do r <- requests_get w (page_url page);
           do res <- response_json w r;
           ret (Some res))
          (fun _ => true)
          (fun _ => print (MsgJikanPageFailed page);; ret None);
      match fetched with
      | None => ret (Some anime_list)
      | Some res =>
          do empty <- lift (page_is_empty res);
          if (empty : bool) then ret (Some anime_list)
          else
            do data <- lift (getitem res "data");
            do items <- lift (iterate data);
            do entries <- lift (mapM entry_of items);
            let anime_list := anime_list ++ entries in
            print (MsgPage page (len anime_list));;
            let page := page + 1 in
            if len anime_list >=? limit then ret (Some anime_list)
            else sleep 1;; fetch_all_anime_loop w limit fuel' page anime_list
      end
  | O => ret None
  end.

(** Every iteration that does not leave the loop appends at least one
    entry, so [limit] iterations and one more are enough. *)
Definition fetch_all_anime (w : World) (limit : Z) : M (option (list CatalogEntry)) :=
  fetch_all_anime_loop w limit (S (Z.to_nat limit)) 1 [].

(** The dict built by [fetch_jikan_details], key by key. *)
Record Meta : Type := mkMeta {
  m_mal_id : json;
  m_title : json;
  m_synopsis : json;
  m_type : json;
  m_episodes : json;
  m_status : json;
  m_rating : json;
  m_score : json;
  m_rank : json;
  m_popularity : json;
  m_members : json;
  m_favorites : json;
  m_duration : json;
  m_season : json;
  m_year : json;
  m_studios : list json;
  m_genres : list json;
  m_themes : list json;
  m_demographics : list json;
  m_images : json
}.

Definition meta_json (m : Meta) : json :=
  JObj [("mal_id", m_mal_id m); ("title", m_title m); ("synopsis", m_synopsis m);
        ("type", m_type m); ("episodes", m_episodes m); ("status", m_status m);
        ("rating", m_rating m); ("score", m_score m); ("rank", m_rank m);
        ("popularity", m_popularity m); ("members", m_members m);
        ("favorites", m_favorites m); ("duration", m_duration m);
        ("season", m_season m); ("year", m_year m);
        ("studios", JArr (m_studios m)); ("genres", JArr (m_genres m));
        ("themes", JArr (m_themes m)); ("demographics", JArr (m_demographics m));
        ("images", m_images m)].

(** [a or b], where [b] is only evaluated when [a] is falsy *)
Definition py_or (a : json) (b : result json) : result json :=
  if truthy a then Ok a else b.

(** [[s["name"] for s in details.get(field, [])]] *)
Definition names_of (details : json) (field : string) : result (list json) :=
  v ← dict_get details field (JArr []);
  items ← iterate v;
  mapM (fun s => getitem s "name") items.

(** The dict display after the [try] block of [fetch_jikan_details]. *)
Definition project_details (mal_id details : json) : result Meta :=
  title_english ← dict_get details "title_english" JNull;
  title ← py_or title_english (getitem details "title");
  synopsis ← dict_get details "synopsis" JNull;
  type ← dict_get details "type" JNull;
  episodes ← dict_get details "episodes" JNull;
  status ← dict_get details "status" JNull;
  rating ← dict_get details "rating" JNull;
  score ← dict_get details "score" JNull;
  rank ← dict_get details "rank" JNull;
  popularity ← dict_get details "popularity" JNull;
  members ← dict_get details "members" JNull;
  favorites ← dict_get details "favorites" JNull;
  duration ← dict_get details "duration" JNull;
  season ← dict_get details "season" JNull;
  year ← dict_get details "year" JNull;
  studios ← names_of details "studios";
  genres ← names_of details "genres";
  themes ← names_of details "themes";
  demographics ← names_of details "demographics";
  images ← getitem details "images";
  jpg ← getitem images "jpg";
  mret (mkMeta mal_id title synopsis type episodes status rating score rank
          popularity members favorites duration season year
          studios genres themes demographics jpg).

Definition details_url (w : World) (mal_id : json) : string :=
  JIKAN_BASE +:+ "/anime/" +:+ py_str w mal_id +:+ "/full".

Definition fetch_jikan_details (w : World) (mal_id : json) : M (option Meta) :=
  do fetched <-
    try_except
      (do r <- requests_get w (details_url w mal_id);
       do body <- response_json w r;
       do details <- lift (getitem body "data");
       ret (Some details))
      (fun _ => true)
      (fun _ => print (MsgJikanDetailsFailed mal_id);; ret None);
  match fetched with
  | None => ret None
  | Some details =>
      do meta <- lift (project_details mal_id details);
      ret (Some meta)
  end.

(** *** HIANIME *)

(** [a.get(name)] on an element *)
Definition attr (a : Tag) (name : string) : option string := assoc name (tag_attrs a).

(** [o or ""] for an optional [str] *)
Definition or_empty (o : option string) : string :=
  match o with
  | Some s => s
  | None => ""
  end.

(** Truth value of an optional [str]: [None] and [""] are falsy. *)
Definition nonempty (o : option string) : bool :=
  match o with
  | Some s => negb (String.eqb s "")
  | None => false
  end.

(** [{"id": ..., "title": ..., "poster": ...}] *)
Record Info : Type := mkInfo {
  i_id : option string;
  i_title : string;
  i_poster : option string
}.

(** The dict display returned for the anchor that matched. *)
Definition info_of (a : Tag) : result Info :=
  title ← match attr a "title" with
          | Some s => Ok (strip s)
          | None => Raise AttributeError
          end;
  poster ← match tag_img a with
           | Some img =>
               match assoc "data-src" img with
               | Some src => Ok (Some src)
               | None => Raise (KeyError "data-src")
               end
           | None => Ok None
           end;
  mret (mkInfo (attr a "data-id") title poster).

(** [(a.get("title") or "").strip().lower()] *)
Definition anchor_key (a : Tag) : string := lower (strip (or_empty (attr a "title"))).

(** The [for a in anchors] loop of [resolve_hianime_id]. *)
Fixpoint scan_anchors (q : string) (anchors : list Tag) : result (option Info) :=
  match anchors with
  | a :: rest =>
      if String.eqb (anchor_key a) q then Some <$> info_of a
      else scan_anchors q rest
  | [] => Ok None
  end.

(** [query.strip().lower()]; only a [str] has the method *)
Definition strip_lower (query : json) : result string :=
  match query with
  | JStr s => Ok (lower (strip s))
  | _ => Raise AttributeError
  end.

Definition search_url (w : World) (query : json) : string :=
  HIANIME_HOST +:+ "/search?keyword=" +:+ py_str w query.

Definition resolve_hianime_id (w : World) (query : json) : M (option Info) :=
  do html <- proxy_get w (search_url w query) 3 2;
  if negb (nonempty html) then ret None
  else
    let anchors := soup_select w (or_empty html) "a.film-poster-ahref" in
    do q <- lift (strip_lower query);
    lift (scan_anchors q anchors).

(** [{"episodeId": ..., "number": ..., "title": ..., "streaming": ...}] *)
Record Episode : Type := mkEpisode {
  ep_id : option string;
  ep_number : Z;
  ep_title : string;
  ep_streaming : string
}.

Definition episode_json (e : Episode) : json :=
  JObj [("episodeId", json_of_opt (ep_id e)); ("number", JInt (ep_number e));
        ("title", JStr (ep_title e)); ("streaming", JStr (ep_streaming e))].

(** [int(a.get("data-number") or 0)] *)
Definition episode_number (a : Tag) : result Z :=
  if nonempty (attr a "data-number")
  then match int_of_str (or_empty (attr a "data-number")) with
       | Some n => Ok n
       | None => Raise ValueError
       end
  else Ok 0.

Definition streaming_url (w : World) (a : Tag) : string :=
  "https://megaplay.buzz/stream/s-2/" +:+ py_str w (json_of_opt (attr a "data-id")) +:+ "/sub".

(** The dict display appended for one episode anchor. *)
Definition episode_of (w : World) (a : Tag) : result Episode :=
  number ← episode_number a;
  mret (mkEpisode (attr a "data-id") number
          (strip (or_empty (tag_ep_name a))) (streaming_url w a)).

(** [sorted(l, key=key)]: ascending, equal keys keep their order *)
Fixpoint insert_sorted {A} (key : A -> Z) (x : A) (l : list A) : list A :=
  match l with
  | y :: l' => if key x <=? key y then x :: l else y :: insert_sorted key x l'
  | [] => [x]
  end.

Definition sorted {A} (key : A -> Z) (l : list A) : list A :=
  foldr (insert_sorted key) [] l.

(** [BeautifulSoup(markup, "html.parser").select(selector)]; the
    constructor refuses markup that is not text. *)
Definition select_in (w : World) (markup : json) (selector : string) : result (list Tag) :=
  match markup with
  | JStr html => Ok (soup_select w html selector)
  | _ => Raise TypeError
  end.

Definition episode_list_url (w : World) (anime_data_id : option string) : string :=
  HIANIME_HOST +:+ "/ajax/v2/episode/list/" +:+ py_str w (json_of_opt anime_data_id).

(** [if not data.get("status") or not data.get("html")] *)
Definition payload_is_empty (data : json) : result bool :=
  status ← dict_get data "status" JNull;
  if negb (truthy status) then mret true
  else html ← dict_get data "html" JNull; mret (negb (truthy html)).

Definition fetch_episode_list (w : World) (anime_data_id : option string) : M (list Episode) :=
  do txt <- proxy_get w (episode_list_url w anime_data_id) 3 2;
  if negb (nonempty txt) then ret []
  else
    do parsed <-
      try_except
        (match json_loads w (or_empty txt) with
         | Some data => ret (Some data)
         | None => raise JSONDecodeError
         end)
        is_JSONDecodeError
        (fun _ =>
           print (MsgEpisodeJSONFailed (py_str w (json_of_opt anime_data_id)));;
           ret None);
    match parsed with
    | None => ret []
    | Some data =>
        do empty <- lift (payload_is_empty data);
        if (empty : bool) then ret []
        else
          do html <- lift (getitem data "html");
          do anchors <- lift (select_in w html "a.ssl-item.ep-item");
          do eps <- lift (mapM (episode_of w) anchors);
          ret (sorted ep_number eps)
    end.

(** *** PIPELINE *)

(** [title.replace(' ', '_')]; only a [str] has the method *)
Definition sanitize (title : json) : result string :=
  match title with
  | JStr s => Ok (replace_space_underscore s)
  | _ => Raise AttributeError
  end.

Definition fetch_full_anime (w : World) (mal_id title : json) : M unit :=
  do meta <- fetch_jikan_details w mal_id;
  match meta with
  | None => ret tt
  | Some meta =>
      do info <- resolve_hianime_id w (m_title meta);
      do found <-
        match info with
        | Some info =>
            do episodes <- fetch_episode_list w (i_id info);
            do name <- lift (sanitize (m_title meta));
            ret (episodes, name +:+ "-" +:+ py_str w (json_of_opt (i_id info)))
        | None =>
            print (MsgNoMatch (m_title meta));;
            do name <- lift (sanitize (m_title meta));
            ret ([], name +:+ "-" +:+ py_str w mal_id)
        end;
      let episodes := found.1 in
      let folder := path_join OUTPUT_DIR found.2 in
      os_makedirs folder;;
      save_json (meta_json meta) folder "meta.json";;
      (match episodes with
       | [] => ret tt
       | _ => save_json (JArr (map episode_json episodes)) folder "episodes.json"
       end);;
      print (MsgDone (m_title meta) (len episodes))
  end.

(** *** RUN *)

(** [for a in all_anime: fetch_full_anime(a["mal_id"], a["title"]); time.sleep(1)] *)
Fixpoint process_all (w : World) (all_anime : list CatalogEntry) : M unit :=
  match all_anime with
  | a :: rest =>
      fetch_full_anime w (e_mal_id a) (e_title a);;
      sleep 1;;
      process_all w rest
  | [] => ret tt
  end.

Definition main (w : World) : M (option unit) :=
  do all_anime <- fetch_all_anime w 200;
  match all_anime with
  | Some all_anime => process_all w all_anime;; ret (Some tt)
  | None => ret None
  end.

(** ** Vocabulary of the properties *)

(** A request fails when the transport does or the status is an error. *)
Definition fails (o : http_outcome) : bool :=
  match o with
  | TransportFailure => true
  | HttpResponse status _ => (400 <=? status) && (status <? 600)
  end.

(** What one failed attempt leaves in the trace. *)
Definition failed_attempt (url : string) (retries delay attempt : Z) : list event :=
  [EvGet (PROXY +:+ quote url); EvPrint (MsgProxyError attempt retries url); EvSleep delay].

(** Every directory along [todo], below [base], is there. *)
Fixpoint all_dirs (m : gmap (list string) fsnode) (base todo : list string) : bool :=
  match todo with
  | c :: rest => is_dir m (base ++ [c]) && all_dirs m (base ++ [c]) rest
  | [] => true
  end.

(** ** Sample worlds *)

Definition s0 : State := mkState [] ∅.

(** No request gets through, nothing parses. *)
Definition w_dead : World :=
  mkWorld (fun _ _ => TransportFailure) (fun _ => None) (fun _ _ => []) (fun _ => "").

(** A world given by tables: the answer to each URL (the same at every
    request), the documents [json.loads] recognises by their text, and
    the elements each selector finds in each markup. *)
Definition table_world (pages : list (string * http_outcome)) (docs : list json)
    (markup : list (string * list Tag)) : World :=
  mkWorld
    (fun url _ =>
       match assoc url pages with
       | Some answer => answer
       | None => TransportFailure
       end)
    (fun text => List.find (fun doc => String.eqb (json_dumps doc) text) docs)
    (fun html selector =>
       match assoc (selector +:+ " in " +:+ html) markup with
       | Some found => found
       | None => []
       end)
    (fun _ => "[...]").

Definition proxied (url : string) : string := PROXY +:+ quote url.

(** Catalog entry 1: an English title, one studio, two genres. *)
Definition bebop_details : json :=
  JObj [("data",
         JObj [("mal_id", JInt 1);
               ("title", JStr "Cowboy Bebop");
               ("title_english", JStr "Cowboy Bebop");
               ("type", JStr "TV");
               ("episodes", JInt 26);
               ("score", JFloat "8.75");
               ("studios", JArr [JObj [("mal_id", JInt 14); ("name", JStr "Sunrise")]]);
               ("genres", JArr [JObj [("mal_id", JInt 1); ("name", JStr "Action")];
                                JObj [("mal_id", JInt 24); ("name", JStr "Sci-Fi")]]);
               ("images",
                JObj [("jpg", JObj [("image_url", JStr "https://cdn.example/1.jpg")])])])].

(** Catalog entry 5: the English title is null. *)
Definition movie_details : json :=
  JObj [("data",
         JObj [("mal_id", JInt 5);
               ("title", JStr "Cowboy Bebop: Tengoku no Tobira");
               ("title_english", JNull);
               ("type", JStr "Movie");
               ("studios", JArr [JObj [("mal_id", JInt 4); ("name", JStr "Bones")]]);
               ("images",
                JObj [("jpg", JObj [("image_url", JStr "https://cdn.example/5.jpg")])])])].

(** Catalog entry 6: a record without its [images] object. *)
Definition trigun_details : json :=
  JObj [("data",
         JObj [("mal_id", JInt 6);
               ("title", JStr "Trigun");
               ("title_english", JStr "Trigun")])].

Definition bebop_search_html : string :=
  "<a class='film-poster-ahref' title='Cowboy Bebop: The Movie' data-id='45'></a>"
  +:+ "<a class='film-poster-ahref' title=' COWBOY BEBOP' data-id='27'><img data-src='https://cdn.example/p27.jpg'></a>"
  +:+ "<a class='film-poster-ahref' title='Cowboy Bebop' data-id='99'></a>".

Definition bebop_movie_anchor : Tag :=
  mkTag [("class", "film-poster-ahref"); ("title", "Cowboy Bebop: The Movie"); ("data-id", "45")]
        None None.

Definition bebop_upper_anchor : Tag :=
  mkTag [("class", "film-poster-ahref"); ("title", " COWBOY BEBOP"); ("data-id", "27")]
        (Some [("data-src", "https://cdn.example/p27.jpg")]) None.

Definition bebop_plain_anchor : Tag :=
  mkTag [("class", "film-poster-ahref"); ("title", "Cowboy Bebop"); ("data-id", "99")]
        None None.

Definition bebop_anchors : list Tag :=
  [bebop_movie_anchor; bebop_upper_anchor; bebop_plain_anchor].

Definition bebop_episodes_html : string :=
  "<a class='ssl-item ep-item' data-number='3' data-id='303'><div class='ep-name'>Honky Tonk Women</div></a>"
  +:+ "<a class='ssl-item ep-item' data-number='1' data-id='301'><div class='ep-name'> Asteroid Blues </div></a>"
  +:+ "<a class='ssl-item ep-item' data-id='300'></a>"
  +:+ "<a class='ssl-item ep-item' data-number='2' data-id='302'><div class='ep-name'>Stray Dog Strut</div></a>".

Definition bebop_episode_anchors : list Tag :=
  [mkTag [("class", "ssl-item ep-item"); ("data-number", "3"); ("data-id", "303")]
         None (Some "Honky Tonk Women");
   mkTag [("class", "ssl-item ep-item"); ("data-number", "1"); ("data-id", "301")]
         None (Some " Asteroid Blues ");
   mkTag [("class", "ssl-item ep-item"); ("data-id", "300")] None None;
   mkTag [("class", "ssl-item ep-item"); ("data-number", "2"); ("data-id", "302")]
         None (Some "Stray Dog Strut")].

Definition bebop_episodes : json :=
  JObj [("status", JBool true); ("html", JStr bebop_episodes_html)].

(** The search for entry 5 finds a title that differs by punctuation. *)
Definition movie_search_html : string :=
  "<a class='film-poster-ahref' title='Cowboy Bebop - Tengoku no Tobira' data-id='45'></a>".

Definition movie_anchors : list Tag :=
  [mkTag [("class", "film-poster-ahref"); ("title", "Cowboy Bebop - Tengoku no Tobira");
          ("data-id", "45")] None None].

(** Catalog entry 20: details and a match, but one episode of the
    list is numbered 12.5. *)
Definition naruto_details : json :=
  JObj [("data",
         JObj [("mal_id", JInt 20);
               ("title", JStr "Naruto");
               ("title_english", JStr "Naruto");
               ("images",
                JObj [("jpg", JObj [("image_url", JStr "https://cdn.example/20.jpg")])])])].

Definition naruto_search_html : string :=
  "<a class='film-poster-ahref' title='Naruto' data-id='31'></a>".

Definition naruto_anchors : list Tag :=
  [mkTag [("class", "film-poster-ahref"); ("title", "Naruto"); ("data-id", "31")] None None].

Definition recap_anchor : Tag :=
  mkTag [("class", "ssl-item ep-item"); ("data-number", "12.5"); ("data-id", "3125")]
        None (Some "Recap").

Definition naruto_episodes_html : string :=
  "<a class='ssl-item ep-item' data-number='12' data-id='3112'><div class='ep-name'>Battle on the Bridge</div></a>"
  +:+ "<a class='ssl-item ep-item' data-number='12.5' data-id='3125'><div class='ep-name'>Recap</div></a>".

Definition naruto_episode_anchors : list Tag :=
  [mkTag [("class", "ssl-item ep-item"); ("data-number", "12"); ("data-id", "3112")]
         None (Some "Battle on the Bridge");
   recap_anchor].

Definition naruto_episodes : json :=
  JObj [("status", JBool true); ("html", JStr naruto_episodes_html)].

(** Entry 1 has a match with episodes, entry 5 has details but no
    match, entry 6 has a record the projection cannot index, entry 20
    has an episode whose number is not an integer. *)
Definition w_sample : World :=
  table_world
    [("https://api.jikan.moe/v4/anime/1/full", HttpResponse 200 (json_dumps bebop_details));
     ("https://api.jikan.moe/v4/anime/5/full", HttpResponse 200 (json_dumps movie_details));
     ("https://api.jikan.moe/v4/anime/6/full", HttpResponse 200 (json_dumps trigun_details));
     (proxied "https://hianimez.is/search?keyword=Cowboy Bebop",
      HttpResponse 200 bebop_search_html);
     (proxied "https://hianimez.is/search?keyword=Cowboy Bebop: Tengoku no Tobira",
      HttpResponse 200 movie_search_html);
     (proxied "https://hianimez.is/ajax/v2/episode/list/27",
      HttpResponse 200 (json_dumps bebop_episodes));
     ("https://api.jikan.moe/v4/anime/20/full", HttpResponse 200 (json_dumps naruto_details));
     (proxied "https://hianimez.is/search?keyword=Naruto",
      HttpResponse 200 naruto_search_html);
     (proxied "https://hianimez.is/ajax/v2/episode/list/31",
      HttpResponse 200 (json_dumps naruto_episodes))]
    [bebop_details; movie_details; trigun_details; bebop_episodes;
     naruto_details; naruto_episodes]
    [("a.film-poster-ahref in " +:+ bebop_search_html, bebop_anchors);
     ("a.film-poster-ahref in " +:+ movie_search_html, movie_anchors);
     ("a.ssl-item.ep-item in " +:+ bebop_episodes_html, bebop_episode_anchors);
     ("a.film-poster-ahref in " +:+ naruto_search_html, naruto_anchors);
     ("a.ssl-item.ep-item in " +:+ naruto_episodes_html, naruto_episode_anchors)].

(** The record the [try] block of [fetch_jikan_details] obtains when
    the request is the GET number [n] of the run: the [data] member of
    the decoded body, if the request, the decoding and the lookup all
    work. *)
Definition detail_record (w : World) (mal_id : json) (n : nat) : option json :=
  match http w (details_url w mal_id) n with
  | HttpResponse _ text =>
      match json_loads w text with
      | Some body =>
          match getitem body "data" with
          | Ok details => Some details
          | Raise _ => None
          end
      | None => None
      end
  | TransportFailure => None
  end.

(** The state after a GET at [url], and after any further events. *)
Definition after (s : State) (events : list event) : State :=
  mkState (trace s ++ events) (fs s).

(** A taxonomy list whose entries the comprehension can index: absent,
    or a list of objects that each carry a [name]. *)
Definition has_name (entry : json) : bool :=
  match entry with
  | JObj fields => match assoc "name" fields with Some _ => true | None => false end
  | _ => false
  end.

Definition taxonomy_ok (fields : list (string * json)) (field : string) : bool :=
  match assoc field fields with
  | None => true
  | Some (JArr entries) => forallb has_name entries
  | Some _ => false
  end.

(** A detail record with every member the projection indexes
    directly: a default title unless the English one is truthy, names
    in the four taxonomy lists, and [images] with a [jpg] member. *)
Definition well_formed_details (details : json) : bool :=
  match details with
  | JObj fields =>
      (match assoc "title_english" fields with
       | Some english => truthy english
       | None => false
       end
       || match assoc "title" fields with Some _ => true | None => false end)
      && taxonomy_ok fields "studios" && taxonomy_ok fields "genres"
      && taxonomy_ok fields "themes" && taxonomy_ok fields "demographics"
      && match assoc "images" fields with
         | Some (JObj images) =>
             match assoc "jpg" images with Some _ => true | None => false end
         | _ => false
         end
  | _ => false
  end.

(** What [fetch_jikan_details] builds for catalog entry 5. *)
Definition movie_meta : Meta :=
  mkMeta (JInt 5) (JStr "Cowboy Bebop: Tengoku no Tobira") JNull (JStr "Movie")
    JNull JNull JNull JNull JNull JNull JNull JNull JNull JNull JNull
    [JStr "Bones"] [] [] []
    (JObj [("image_url", JStr "https://cdn.example/5.jpg")]).


(** Ascending episode numbers. *)
Definition by_number (x y : Episode) : Prop := ep_number x <= ep_number y.



(** The episode list of catalog entry 1, as [fetch_episode_list]
    returns it: the markup has the numbers 3, 1, none, 2. *)
Definition bebop_episode_list : list Episode :=
  [mkEpisode (Some "300") 0 "" "https://megaplay.buzz/stream/s-2/300/sub";
   mkEpisode (Some "301") 1 "Asteroid Blues" "https://megaplay.buzz/stream/s-2/301/sub";
   mkEpisode (Some "302") 2 "Stray Dog Strut" "https://megaplay.buzz/stream/s-2/302/sub";
   mkEpisode (Some "303") 3 "Honky Tonk Women" "https://megaplay.buzz/stream/s-2/303/sub"].

(** The display title of an anchor, trimmed and lowercased, differs
    from the trimmed and lowercased query. *)
Definition differs_from (q : string) (a : Tag) : Prop :=
  lower (strip (or_empty (attr a "title"))) <> lower (strip q).

Definition titled (title : string) : Tag :=
  mkTag [("class", "film-poster-ahref"); ("title", title); ("data-id", "112")] None None.

(** Page [p] (counted from 1) of a catalog, 25 entries to the page. *)
Definition page_of (catalog : list CatalogEntry) (p : Z) : list CatalogEntry :=
  take 25 (drop (25 * Z.to_nat (p - 1)) catalog).

(** The catalog API serves [catalog]: whenever page [p] is requested,
    up to the first page after the end, the body decodes to an object
    whose [data] member lists the entries of that page. *)
Definition serves (w : World) (catalog : list CatalogEntry) : Prop :=
  forall p n,
    1 <= p <= len catalog / 25 + 2 ->
    exists status text fields items,
      http w (page_url p) n = HttpResponse status text
      /\ json_loads w text = Some (JObj fields)
      /\ assoc "data" fields = Some (JArr items)
      /\ mapM entry_of items = Ok (page_of catalog p).

(** How many entries [fetch_all_anime] collects from a catalog of
    [available] entries: whole pages until [limit] is reached. *)
Definition fetched_count (limit : Z) (available : nat) : nat :=
  min available (25 * Z.to_nat ((Z.max limit 1 + 24) / 25)).

(** Identifiers are integers in strictly ascending order. *)
Definition id_before (a b : CatalogEntry) : Prop :=
  exists x y, e_mal_id a = JInt x /\ e_mal_id b = JInt y /\ x < y.

Definition ascending (l : list CatalogEntry) : Prop := StronglySorted id_before l.

(** A catalog of 26 titles, identifiers 1 to 26. *)
Definition catalog26 : list CatalogEntry :=
  map (fun i => mkEntry (JInt i) (JStr ("Anime " +:+ str_of_int i))) (py_range 1 27).

Definition page_document (entries : list CatalogEntry) : json :=
  JObj [("pagination", JObj [("items", JObj [("per_page", JInt 25)])]);
        ("data",
         JArr (map (fun e => JObj [("mal_id", e_mal_id e); ("title", e_title e);
                                   ("type", JStr "TV")]) entries))].

Definition w_catalog : World :=
  table_world
    [(page_url 1, HttpResponse 200 (json_dumps (page_document (page_of catalog26 1))));
     (page_url 2, HttpResponse 200 (json_dumps (page_document (page_of catalog26 2))));
     (page_url 3, HttpResponse 200 (json_dumps (page_document (page_of catalog26 3))))]
    [page_document (page_of catalog26 1); page_document (page_of catalog26 2);
     page_document (page_of catalog26 3)]
    [].

(** A computation that leaves the file system alone. *)
Definition keeps_fs {A} (m : M A) : Prop :=
  forall s r s', m s = (r, s') -> fs s' = fs s.

(** A computation whose exceptions all satisfy [P]. *)
Definition raises_only {A} (P : exn -> Prop) (m : M A) : Prop :=
  forall s e s', m s = (Raise e, s') -> P e.

Definition pure_raises_only {A} (P : exn -> Prop) (r : result A) : Prop :=
  forall e, r = Raise e -> P e.

(** Neither a transport failure nor a decoding failure. *)
Definition not_io_failure (e : exn) : Prop :=
  is_RequestException e = false /\ is_JSONDecodeError e = false.

(** The folder [fetch_full_anime] writes to: the sanitized title and
    the identifier of the match, or of the catalog when there is none. *)
Definition output_folder (w : World) (mal_id : json) (meta : Meta) (info : option Info)
    : result string :=
  name ← sanitize (m_title meta);
  mret (path_join OUTPUT_DIR
          (name +:+ "-" +:+ py_str w match info with
                                     | Some i => json_of_opt (i_id i)
                                     | None => mal_id
                                     end)).

(** What [fetch_jikan_details] builds for catalog entry 1. *)
Definition bebop_meta : Meta :=
  mkMeta (JInt 1) (JStr "Cowboy Bebop") JNull (JStr "TV") (JInt 26)
    JNull JNull (JFloat "8.75") JNull JNull JNull JNull JNull JNull JNull
    [JStr "Sunrise"] [JStr "Action"; JStr "Sci-Fi"] [] []
    (JObj [("image_url", JStr "https://cdn.example/1.jpg")]).

(** Requests are paced: a GET is issued only at the start or after a
    pause of [pause] seconds since the GET before it. *)
Fixpoint paced (pause : Z) (rested : bool) (events : list event) : bool :=
  match events with
  | EvGet _ :: rest => rested && paced pause false rest
  | EvSleep seconds :: rest => paced pause (rested || (seconds =? pause)) rest
  | EvPrint _ :: rest => paced pause rested rest
  | [] => true
  end.


(** Only unreserved characters and the percent sign. *)
Fixpoint url_safe (s : string) : bool :=
  match s with
  | String a rest => (is_unreserved a || Ascii.eqb a "%") && url_safe rest
  | EmptyString => true
  end.

(** No directory along [todo], below [base], is taken by a regular file. *)
Fixpoint no_file_on (m : gmap (list string) fsnode) (base todo : list string) : bool :=
  match todo with
  | c :: rest =>
      match m !! (base ++ [c]) with
      | Some (FsFile _) => is_root (base ++ [c])
      | _ => true
      end
      && no_file_on m (base ++ [c]) rest
  | [] => true
  end.

(** A file name without directory part. *)
Definition plain_name (name : string) : bool :=
  match split_slash name with
  | [c] => String.eqb c name && is_name name
  | _ => false
  end.

(** A disk that already holds a directory and a file of its own. *)
Definition s_disk : State :=
  mkState []
    (<[ ["anime_data"; "notes.txt"] := FsFile "keep me" ]>
       (<[ ["anime_data"] := FsDir ]> ∅)).


(** Page [p] of [catalog] is what the API answers, whenever asked. *)
Definition serves_page (w : World) (catalog : list CatalogEntry) (p : Z) : Prop :=
  forall n,
    exists status text fields items,
      http w (page_url p) n = HttpResponse status text
      /\ json_loads w text = Some (JObj fields)
      /\ assoc "data" fields = Some (JArr items)
      /\ mapM entry_of items = Ok (page_of catalog p).

(** The request for page [p] fails, or its body is not JSON. *)
Definition page_fails (w : World) (p : Z) : Prop :=
  forall n,
    match http w (page_url p) n with
    | TransportFailure => True
    | HttpResponse _ text => json_loads w text = None
    end.

(** A catalog of 60 titles; the API serves the first two pages and
    times out on the third. *)
Definition catalog60 : list CatalogEntry :=
  map (fun i => mkEntry (JInt i) (JStr ("Anime " +:+ str_of_int i))) (py_range 1 61).

Definition w_timeout : World :=
  table_world
    [(page_url 1, HttpResponse 200 (json_dumps (page_document (page_of catalog60 1))));
     (page_url 2, HttpResponse 200 (json_dumps (page_document (page_of catalog60 2))))]
    [page_document (page_of catalog60 1); page_document (page_of catalog60 2)]
    [].

(** [details.get(key)] on the members of a record *)
Definition member_or_null (fields : list (string * json)) (key : string) : json :=
  match assoc key fields with
  | Some v => v
  | None => JNull
  end.

(** [names] are the [name] members of the entries listed under [key],
    one for one and in their order; no entry when [key] is absent. *)
Definition names_listed (fields : list (string * json)) (key : string) (names : list json)
    : Prop :=
  exists entries,
    iterate match assoc key fields with Some v => v | None => JArr [] end = Ok entries
    /\ Forall2 (fun entry name => getitem entry "name" = Ok name) entries names.

(** The identifier as an f-string prints it: a missing one reads
    [None]. *)
Definition printed_id (o : option string) : string :=
  match o with
  | Some i => i
  | None => "None"
  end.

(** An episode-list body of one anchor, without identifier, title or
    number. *)
Definition bare_episodes_html : string := "<a class='ssl-item ep-item'></a>".

Definition bare_episodes : json :=
  JObj [("status", JBool true); ("html", JStr bare_episodes_html)].

(** A proxy that answers the episode lists 40 to 43 with, in turn,
    an empty body, a body that is not JSON, a JSON body whose status
    is false, and a JSON body that is not an object; and list 44 with
    a single bare anchor. *)
Definition w_odd : World :=
  table_world
    [(proxied "https://hianimez.is/ajax/v2/episode/list/40", HttpResponse 200 "");
     (proxied "https://hianimez.is/ajax/v2/episode/list/41",
      HttpResponse 200 "<html>Bad gateway</html>");
     (proxied "https://hianimez.is/ajax/v2/episode/list/42",
      HttpResponse 200 (json_dumps (JObj [("status", JBool false)])));
     (proxied "https://hianimez.is/ajax/v2/episode/list/43",
      HttpResponse 200 (json_dumps (JArr [])));
     (proxied "https://hianimez.is/ajax/v2/episode/list/44",
      HttpResponse 200 (json_dumps bare_episodes))]
    [JObj [("status", JBool false)]; JArr []; bare_episodes]
    [("a.ssl-item.ep-item in " +:+ bare_episodes_html, [mkTag [] None None])].

(** The path ends in one of the two file names the pipeline writes. *)
Definition output_name (q : list string) : bool :=
  match last q with
  | Some name => String.eqb name "meta.json" || String.eqb name "episodes.json"
  | None => false
  end.

(** A computation under which every directory stays a directory and
    every file not named like an output keeps its content. *)
Definition spares {A} (m : M A) : Prop :=
  forall s r s' q v,
    m s = (r, s') ->
    fs s !! q = Some v ->
    v = FsDir \/ output_name q = false ->
    fs s' !! q = Some v.

(** A world that answers a URL the same way whenever it is asked. *)
Definition stationary (w : World) : Prop :=
  forall url n n', http w url n = http w url n'.

(** A computation that ends the same way and adds the same events
    whatever state it starts from, and leaves the file system alone. *)
Definition oblivious {A} (m : M A) : Prop :=
  exists r events, forall s, m s = (r, after s events).


(** * Properties *)

(** ** Python primitives on sample inputs *)

Example strip_lower_ex : lower (strip "  Attack on Titan ") = "attack on titan".
Proof. reflexivity. Qed.
Example quote_ex : quote "aZ09_.-~ /:?=&%+" = "aZ09_.-~%20%2F%3A%3F%3D%26%25%2B".
Proof. reflexivity. Qed.
Example int_ex : map int_of_str ["12"; " 12 "; "+5"; "-0"; "1_000"; "1__0"; "_1"; "1_"; "+ 1"; ""; "+"; "abc"; "-12"; "00012"]
  = [Some 12; Some 12; Some 5; Some 0; Some 1000; None; None; None; None; None; None; None; Some (-12); Some 12].
Proof. reflexivity. Qed.
Example str_of_int_ex : map str_of_int [0; 12; -7] = ["0"; "12"; "-7"].
Proof. reflexivity. Qed.
Example path_join_ex : map (fun p => path_join p.1 p.2) [("a","b"); ("a/","b"); ("","b"); ("a","/b"); ("a","")] = ["a/b"; "a/b"; "b"; "/b"; "a/"].
Proof. reflexivity. Qed.


(** ** Requests and the trace *)

Lemma gets_app (t u : list event) : gets (t ++ u) = gets t ++ gets u.
Proof. unfold gets. apply List.filter_app. Qed.

Lemma proxy_get_attempt_fails w url retries delay attempt s :
  fails (http w (PROXY +:+ quote url) (length (gets (trace s)))) = true ->
  proxy_get_attempt w url retries delay attempt s
  = (Ok None, mkState (trace s ++ failed_attempt url retries delay attempt) (fs s)).
Proof.
  intros Hf. unfold proxy_get_attempt, try_except, bind, requests_get.
  destruct (http w _ _) as [|status text]; simpl in *.
  - unfold print, sleep, emit, ret, failed_attempt; simpl.
    by rewrite <- !app_assoc.
  - unfold raise_for_status; simpl. rewrite Hf. unfold raise; simpl.
    unfold print, sleep, emit, ret, failed_attempt; simpl.
    by rewrite <- !app_assoc.
Qed.

Lemma proxy_get_loop_fails w url retries delay attempts : forall s,
  (forall i, (i < length attempts)%nat ->
     fails (http w (PROXY +:+ quote url) (length (gets (trace s)) + i)) = true) ->
  proxy_get_loop w url retries delay attempts s
  = (Ok None,
     mkState (trace s ++ flat_map (failed_attempt url retries delay) attempts
                      ++ [EvPrint (MsgProxyFailed retries url)]) (fs s)).
Proof.
  induction attempts as [|a rest IH]; intros s Hall; simpl.
  - reflexivity.
  - unfold bind at 1. rewrite proxy_get_attempt_fails.
    2:{ specialize (Hall 0%nat). rewrite Nat.add_0_r in Hall. apply Hall. simpl. lia. }
    rewrite IH; simpl.
    + by rewrite <- !app_assoc.
    + intros i Hi. rewrite gets_app, length_app. simpl.
      replace (length (gets (trace s)) + 1 + i)%nat
        with (length (gets (trace s)) + S i)%nat by lia.
      apply Hall. simpl. lia.
Qed.

(** C7. When each of the three requests fails, [proxy_get] with the
    default [retries=3, delay=2] issues the request exactly three times,
    pausing after each failure, and then returns [None]: it does not
    raise. *)
Theorem proxy_get_three_failures w url s :
  (forall i, (i < 3)%nat ->
     fails (http w (PROXY +:+ quote url) (length (gets (trace s)) + i)) = true) ->
  proxy_get w url 3 2 s
  = (Ok None,
     mkState (trace s ++ failed_attempt url 3 2 1 ++ failed_attempt url 3 2 2
                      ++ failed_attempt url 3 2 3
                      ++ [EvPrint (MsgProxyFailed 3 url)]) (fs s))
  /\ length (gets (trace (proxy_get w url 3 2 s).2)) = (length (gets (trace s)) + 3)%nat.
Proof.
  intros Hall. unfold proxy_get.
  change (py_range 1 (3 + 1)) with [1; 2; 3].
  rewrite proxy_get_loop_fails by exact Hall.
  split; [reflexivity|].
  simpl. rewrite gets_app, length_app. reflexivity.
Qed.

Lemma proxy_get_three_failures_witness :
  proxy_get w_dead "https://hianimez.is/search?keyword=Naruto" 3 2 s0
  = (Ok None,
     mkState (trace s0
              ++ failed_attempt "https://hianimez.is/search?keyword=Naruto" 3 2 1
              ++ failed_attempt "https://hianimez.is/search?keyword=Naruto" 3 2 2
              ++ failed_attempt "https://hianimez.is/search?keyword=Naruto" 3 2 3
              ++ [EvPrint (MsgProxyFailed 3 "https://hianimez.is/search?keyword=Naruto")])
             (fs s0))
  /\ length (gets (trace (proxy_get w_dead "https://hianimez.is/search?keyword=Naruto" 3 2 s0).2))
     = (length (gets (trace s0)) + 3)%nat.
Proof.
  apply (proxy_get_three_failures w_dead "https://hianimez.is/search?keyword=Naruto" s0).
  intros i _. reflexivity.
Defined.

(** ** Running the monad *)

Lemma bind_ok {A B} (m : M A) (k : A -> M B) s a s' :
  m s = (Ok a, s') -> bind m k s = k a s'.
Proof. intros H. unfold bind. by rewrite H. Qed.

Lemma bind_raise {A B} (m : M A) (k : A -> M B) s e s' :
  m s = (Raise e, s') -> bind m k s = (Raise e, s').
Proof. intros H. unfold bind. by rewrite H. Qed.

(** ** The file system and [save_json] *)

Lemma mkdirs_keeps todo : forall base s r s' q v,
  mkdirs base todo s = (r, s') -> fs s !! q = Some v -> fs s' !! q = Some v.
Proof.
  induction todo as [|c rest IH]; intros base s r s' q v Hrun Hq; simpl in Hrun.
  - unfold ret in Hrun. by simplify_eq.
  - destruct (is_root (base ++ [c])); [by eapply IH|].
    destruct (fs s !! (base ++ [c])) as [[|content]|] eqn:Hp.
    + by eapply IH.
    + by simplify_eq.
    + eapply IH; [exact Hrun|]. simpl.
      rewrite lookup_insert_ne; [done|]. intros <-. congruence.
Qed.


Lemma is_dir_keeps todo base s r s' q :
  mkdirs base todo s = (r, s') -> is_dir (fs s) q = true -> is_dir (fs s') q = true.
Proof.
  intros Hrun. unfold is_dir. destruct (is_root q); [done|]. simpl.
  destruct (fs s !! q) as [[|]|] eqn:Hq; try done.
  intros _. by rewrite (mkdirs_keeps _ _ _ _ _ _ _ Hrun Hq).
Qed.

(** Running [mkdirs] again changes nothing and ends the same way. *)
Lemma mkdirs_stable todo : forall base s r s',
  mkdirs base todo s = (r, s') -> mkdirs base todo s' = (r, s').
Proof.
  induction todo as [|c rest IH]; intros base s r s' Hrun; simpl in *.
  - unfold ret in *. by simplify_eq.
  - destruct (is_root (base ++ [c])) eqn:Hroot; [by eapply IH|].
    destruct (fs s !! (base ++ [c])) as [[|content]|] eqn:Hp.
    + rewrite (mkdirs_keeps _ _ _ _ _ _ _ Hrun Hp). by eapply IH.
    + simplify_eq. by rewrite Hp.
    + assert (fs s' !! (base ++ [c]) = Some FsDir) as ->.
      { eapply mkdirs_keeps; [exact Hrun|]. simpl. apply lookup_insert_eq. }
      by eapply IH.
Qed.

Lemma mkdirs_all_dirs todo : forall base s s',
  mkdirs base todo s = (Ok tt, s') -> all_dirs (fs s') base todo = true.
Proof.
  induction todo as [|c rest IH]; intros base s s' Hrun; simpl in *; [done|].
  apply andb_true_iff.
  destruct (is_root (base ++ [c])) eqn:Hroot.
  { split; [|by eapply IH]. unfold is_dir. by rewrite Hroot. }
  destruct (fs s !! (base ++ [c])) as [[|content]|] eqn:Hp.
  - split; [|by eapply IH]. unfold is_dir.
    by rewrite (mkdirs_keeps _ _ _ _ _ _ _ Hrun Hp), orb_true_r.
  - by simplify_eq.
  - split; [|by eapply IH]. unfold is_dir.
    erewrite (mkdirs_keeps _ _ _ _ _ _ FsDir Hrun); [by rewrite orb_true_r|].
    simpl. apply lookup_insert_eq.
Qed.

Lemma mkdirs_noop todo : forall base s,
  all_dirs (fs s) base todo = true -> mkdirs base todo s = (Ok tt, s).
Proof.
  induction todo as [|c rest IH]; intros base s Hall; simpl in *; [done|].
  apply andb_true_iff in Hall as [Hd Hrest]. unfold is_dir in Hd.
  destruct (is_root (base ++ [c])); [by apply IH|]. simpl in Hd.
  destruct (fs s !! (base ++ [c])) as [[|content]|]; try done. by apply IH.
Qed.

Lemma is_dir_insert_ne m p q v :
  p <> q -> is_dir (<[p := v]> m) q = is_dir m q.
Proof. intros Hne. unfold is_dir. by rewrite lookup_insert_ne. Qed.

Lemma all_dirs_insert todo : forall m base p v,
  is_dir m p = false -> all_dirs m base todo = true ->
  all_dirs (<[p := v]> m) base todo = true.
Proof.
  induction todo as [|c rest IH]; intros m base p v Hp Hall; simpl in *; [done|].
  apply andb_true_iff in Hall as [Hd Hrest]. apply andb_true_iff. split.
  - rewrite is_dir_insert_ne; [done|]. intros ->. congruence.
  - by apply IH.
Qed.

Lemma length_removelast_cons {A} (l : list A) : forall x,
  length (removelast (x :: l)) = length l.
Proof.
  induction l as [|z k IH]; intros x; [done|].
  change (removelast (x :: z :: k)) with (x :: removelast (z :: k)).
  cbn [length]. by rewrite IH.
Qed.

Lemma removelast_ne {A} (l : list A) : l <> [] -> removelast l <> l.
Proof.
  intros Hne Heq. apply (f_equal (@length A)) in Heq.
  destruct l as [|x l]; [done|].
  rewrite length_removelast_cons in Heq. simpl in Heq. lia.
Qed.

Lemma write_file_ok path content s s' :
  write_file path content s = (Ok tt, s') ->
  s' = mkState (trace s) (<[components path := FsFile content]> (fs s))
  /\ names_directory path = false
  /\ is_root (components path) = false
  /\ is_dir (fs s) (removelast (components path)) = true
  /\ is_dir (fs s) (components path) = false.
Proof.
  unfold write_file.
  destruct (names_directory path); [done|].
  destruct (is_root (components path)) eqn:Hroot; [done|].
  destruct (is_dir (fs s) (removelast (components path))); [|done]. simpl.
  unfold is_dir. rewrite Hroot. simpl.
  destruct (fs s !! components path) as [[|old]|]; [done| |];
    intros [= <-]; repeat split; done.
Qed.

(** Writing the same text to the same path a second time succeeds
    again and leaves the file system as it is. *)
Lemma write_file_again path content s s' t :
  write_file path content s = (Ok tt, s') ->
  write_file path content (mkState t (fs s')) = (Ok tt, mkState t (fs s')).
Proof.
  intros Hw. apply write_file_ok in Hw as (-> & Hn & Hr & Hparent & Hself).
  unfold write_file. cbn [fs trace]. rewrite Hn, Hr. cbn [orb].
  rewrite is_dir_insert_ne, Hparent.
  2:{ intros Heq. symmetry in Heq. revert Heq. apply removelast_ne.
      intros Hnil. by rewrite Hnil in Hr. }
  cbn [negb]. rewrite lookup_insert_eq. by rewrite insert_insert_eq.
Qed.

Lemma write_file_raise path content s e s' :
  write_file path content s = (Raise e, s') -> s' = s.
Proof.
  unfold write_file.
  destruct (_ || _ || _); [by intros [= _ <-]|].
  destruct (fs s !! components path) as [[|old]|]; by intros [= <-] || intros [= _ <-].
Qed.

Lemma mkdirs_again_after_write todo s s1 path content s2 t :
  mkdirs [] todo s = (Ok tt, s1) ->
  write_file path content s1 = (Ok tt, s2) ->
  mkdirs [] todo (mkState t (fs s2)) = (Ok tt, mkState t (fs s2)).
Proof.
  intros Hmk Hw. apply mkdirs_noop. cbn [fs].
  apply write_file_ok in Hw as (-> & _ & _ & _ & Hself). cbn [fs].
  apply all_dirs_insert; [done|]. by eapply mkdirs_all_dirs.
Qed.

(** C8. Calling [save_json] a second time with the same arguments ends
    the way the first call did and leaves every file and directory as
    the first call left it; when the calls succeed the file holds the
    serialised structure after each of them. *)
Theorem save_json_idempotent data folder filename s :
  let first := save_json data folder filename s in
  let second := save_json data folder filename first.2 in
  second.1 = first.1
  /\ fs second.2 = fs first.2
  /\ match first.1 with
     | Ok _ => fs second.2 !! components (path_join folder filename)
               = Some (FsFile (json_dumps data))
     | Raise _ => True
     end.
Proof.
  cbv zeta.
  destruct (String.eqb folder "") eqn:Hfolder.
  { unfold save_json, os_makedirs. rewrite Hfolder. done. }
  assert (Hdef : forall s0, save_json data folder filename s0
            = (do _ <- mkdirs [] (components folder);
               do _ <- write_file (path_join folder filename) (json_dumps data);
               print (MsgSaved filename folder)) s0).
  { intros s0. unfold save_json, os_makedirs. by rewrite Hfolder. }
  rewrite !Hdef.
  destruct (mkdirs [] (components folder) s) as [[[]|e] s1] eqn:Hmk.
  2:{ rewrite (bind_raise _ _ _ _ _ Hmk). cbn [fst snd].
      by rewrite (bind_raise _ _ _ _ _ (mkdirs_stable _ _ _ _ _ Hmk)). }
  rewrite (bind_ok _ _ _ _ _ Hmk).
  destruct (write_file (path_join folder filename) (json_dumps data) s1)
    as [[[]|e] s2] eqn:Hw.
  2:{ apply write_file_raise in Hw as Hs. subst s2.
      rewrite (bind_raise _ _ _ _ _ Hw). cbn [fst snd].
      rewrite (bind_ok _ _ _ _ _ (mkdirs_stable _ _ _ _ _ Hmk)).
      by rewrite (bind_raise _ _ _ _ _ Hw). }
  rewrite (bind_ok _ _ _ _ _ Hw). unfold print, emit. cbn [fst snd fs trace].
  rewrite (bind_ok _ _ _ _ _ (mkdirs_again_after_write _ _ _ _ _ _ _ Hmk Hw)).
  rewrite (bind_ok _ _ _ _ _ (write_file_again _ _ _ _ _ Hw)).
  cbn [fst snd fs trace]. repeat split.
  apply write_file_ok in Hw as (-> & _). cbn [fs]. apply lookup_insert_eq.
Qed.

(** ** [fetch_jikan_details] *)

(** The two ways out of the [try] block. *)
Lemma fetch_jikan_details_run w mal_id s :
  fetch_jikan_details w mal_id s
  = match detail_record w mal_id (length (gets (trace s))) with
    | Some details =>
        (Some <$> project_details mal_id details,
         after s [EvGet (details_url w mal_id)])
    | None =>
        (Ok None,
         after s [EvGet (details_url w mal_id); EvPrint (MsgJikanDetailsFailed mal_id)])
    end.
Proof.
  unfold fetch_jikan_details, detail_record, after.
  unfold bind at 1. unfold try_except. unfold bind at 1. unfold requests_get.
  destruct (http w _ _) as [|status text]; cbn.
  { unfold ret. by rewrite <- app_assoc. }
  unfold bind at 1. unfold response_json. cbn.
  destruct (json_loads w text) as [body|]; cbn.
  2:{ unfold ret. by rewrite <- app_assoc. }
  unfold bind, lift. destruct (getitem body "data") as [details|e]; cbn.
  - by destruct (project_details mal_id details).
  - unfold ret. by rewrite <- app_assoc.
Qed.

Lemma result_bind_ok {A B} (f : A -> result B) (r : result A) b :
  r ≫= f = Ok b -> exists a, r = Ok a /\ f a = Ok b.
Proof. destruct r as [a|e]; [by exists a|done]. Qed.

Lemma result_fmap_ok {A B} (f : A -> B) (r : result A) b :
  f <$> r = Ok b -> exists a, r = Ok a /\ b = f a.
Proof. destruct r as [a|e]; [|done]. intros [= <-]. by exists a. Qed.

(** Only a dict has [get]; a projection that returns was given one. *)
Lemma project_details_ok_obj mal_id details meta :
  project_details mal_id details = Ok meta -> exists fields, details = JObj fields.
Proof. destruct details; try done. by eexists. Qed.

(** The [title] member of the projected record. *)
Lemma project_details_title mal_id fields meta :
  project_details mal_id (JObj fields) = Ok meta ->
  py_or match assoc "title_english" fields with Some x => x | None => JNull end
        (getitem (JObj fields) "title")
  = Ok (m_title meta).
Proof.
  unfold project_details. cbn [dict_get mbind result_bind].
  intros H. apply result_bind_ok in H as (title & Htitle & H).
  rewrite Htitle. f_equal.
  repeat (apply result_bind_ok in H as (? & _ & H)).
  by injection H as <-.
Qed.

Lemma mapM_names entries :
  forallb has_name entries = true ->
  exists names, mapM (fun s => getitem s "name") entries = Ok names.
Proof.
  induction entries as [|entry rest IH]; [by eexists|].
  intros H. cbn [forallb] in H. apply andb_true_iff in H as [Hentry Hrest].
  destruct (IH Hrest) as [names Hnames].
  destruct entry as [| | | | | |fields]; try done.
  cbn [has_name] in Hentry. cbn [mapM getitem].
  destruct (assoc "name" fields) as [name|]; [|done].
  cbn [mbind result_bind]. rewrite Hnames. by eexists.
Qed.

Lemma names_of_ok fields field :
  taxonomy_ok fields field = true ->
  exists names, names_of (JObj fields) field = Ok names.
Proof.
  unfold taxonomy_ok, names_of. cbn [dict_get mbind result_bind].
  destruct (assoc field fields) as [[| | | | |entries|]|]; try done.
  - intros H. cbn. by apply mapM_names.
  - intros _. cbn. by eexists.
Qed.

(** A well-formed record is projected without an exception. *)
Lemma project_details_total mal_id details :
  well_formed_details details = true ->
  exists meta, project_details mal_id details = Ok meta.
Proof.
  destruct details as [| | | | | |fields]; try done. cbn [well_formed_details].
  intros H.
  apply andb_true_iff in H as [H Himages].
  apply andb_true_iff in H as [H Hdemographics].
  apply andb_true_iff in H as [H Hthemes].
  apply andb_true_iff in H as [H Hgenres].
  apply andb_true_iff in H as [Htitle Hstudios].
  unfold project_details. cbn [dict_get mbind result_bind].
  assert (exists title,
            py_or match assoc "title_english" fields with Some x => x | None => JNull end
                  (getitem (JObj fields) "title") = Ok title) as [title ->].
  { unfold py_or. cbn [getitem].
    destruct (assoc "title_english" fields) as [english|]; cbn in Htitle |- *.
    - destruct (truthy english); [by eexists|]. cbn in Htitle.
      destruct (assoc "title" fields); [by eexists|done].
    - destruct (assoc "title" fields); [by eexists|done]. }
  destruct (names_of_ok _ _ Hstudios) as [studios ->].
  destruct (names_of_ok _ _ Hgenres) as [genres ->].
  destruct (names_of_ok _ _ Hthemes) as [themes ->].
  destruct (names_of_ok _ _ Hdemographics) as [demographics ->].
  cbn [getitem].
  destruct (assoc "images" fields) as [[| | | | | |images]|]; try done.
  cbn [getitem mbind result_bind].
  destruct (assoc "jpg" images) as [jpg|]; [|done].
  by eexists.
Qed.

(** C10. In the record [fetch_jikan_details] returns, the title is the
    default title whenever the English title is absent, null or the
    empty string (or any other falsy value), and the English title
    otherwise. *)
Theorem title_falls_back_on_falsy_english w mal_id s meta s' :
  fetch_jikan_details w mal_id s = (Ok (Some meta), s') ->
  exists fields,
    detail_record w mal_id (length (gets (trace s))) = Some (JObj fields)
    /\ match assoc "title_english" fields with
       | None | Some JNull => assoc "title" fields = Some (m_title meta)
       | Some (JStr english) =>
           if String.eqb english ""
           then assoc "title" fields = Some (m_title meta)
           else m_title meta = JStr english
       | Some english =>
           if truthy english
           then m_title meta = english
           else assoc "title" fields = Some (m_title meta)
       end.
Proof.
  rewrite fetch_jikan_details_run.
  destruct (detail_record w mal_id _) as [details|]; [|done].
  intros [= Hproj _]. apply result_fmap_ok in Hproj as (meta' & Hproj & [= <-]).
  destruct (project_details_ok_obj _ _ _ Hproj) as [fields ->].
  exists fields. split; [done|].
  apply project_details_title in Hproj. unfold py_or in Hproj. cbn [getitem] in Hproj.
  assert (Hdefault : match assoc "title" fields with
                     | Some x => Ok x
                     | None => Raise (KeyError "title")
                     end = Ok (m_title meta) ->
                     assoc "title" fields = Some (m_title meta)).
  { destruct (assoc "title" fields); [by intros [= ->]|done]. }
  destruct (assoc "title_english" fields) as [english|]; [|by apply Hdefault].
  destruct english as [|b|z|r|e|items|members]; cbn [truthy] in Hproj |- *.
  - by apply Hdefault.
  - destruct b; [by injection Hproj|by apply Hdefault].
  - destruct (negb (z =? 0)); [by injection Hproj|by apply Hdefault].
  - destruct (negb _); [by injection Hproj|by apply Hdefault].
  - destruct (String.eqb e ""); cbn [negb] in Hproj;
      [by apply Hdefault|by injection Hproj].
  - destruct items; [by apply Hdefault|by injection Hproj].
  - destruct members; [by apply Hdefault|by injection Hproj].
Qed.

Lemma title_falls_back_on_falsy_english_witness :
  exists fields,
    detail_record w_sample (JInt 5) (length (gets (trace s0))) = Some (JObj fields)
    /\ match assoc "title_english" fields with
       | None | Some JNull => assoc "title" fields = Some (m_title movie_meta)
       | Some (JStr english) =>
           if String.eqb english ""
           then assoc "title" fields = Some (m_title movie_meta)
           else m_title movie_meta = JStr english
       | Some english =>
           if truthy english
           then m_title movie_meta = english
           else assoc "title" fields = Some (m_title movie_meta)
       end.
Proof.
  apply (title_falls_back_on_falsy_english w_sample (JInt 5) s0 movie_meta
           (after s0 [EvGet "https://api.jikan.moe/v4/anime/5/full"])).
  vm_compute. reflexivity.
Defined.

(** C3, as the code has it.  The claim fails: a detail record without
    its [images] object makes [fetch_jikan_details] raise [KeyError]. *)
Lemma fetch_jikan_details_raises_without_images :
  (fetch_jikan_details w_sample (JInt 6) s0).1 = Raise (KeyError "images")
  /\ ~ (forall w mal_id s, exists r, (fetch_jikan_details w mal_id s).1 = Ok r).
Proof.
  assert (H : (fetch_jikan_details w_sample (JInt 6) s0).1 = Raise (KeyError "images"))
    by (vm_compute; reflexivity).
  split; [exact H|].
  intros Hall. destruct (Hall w_sample (JInt 6) s0) as [r Hr]. congruence.
Qed.

(** C3, amended.  [fetch_jikan_details] returns without raising
    whenever the response yields no detail record or a well-formed
    one; it returns [None] exactly when there is no record: the request
    failed, the body is not JSON, or it has no [data] member. *)
Theorem fetch_jikan_details_returns w mal_id s :
  (forall details,
     detail_record w mal_id (length (gets (trace s))) = Some details ->
     well_formed_details details = true) ->
  exists r,
    (fetch_jikan_details w mal_id s).1 = Ok r
    /\ (r = None <-> detail_record w mal_id (length (gets (trace s))) = None).
Proof.
  intros Hwf. rewrite fetch_jikan_details_run.
  destruct (detail_record w mal_id _) as [details|].
  - destruct (project_details_total mal_id details (Hwf _ eq_refl)) as [meta ->].
    exists (Some meta). by split.
  - by exists None.
Qed.

Lemma fetch_jikan_details_returns_witness :
  exists r,
    (fetch_jikan_details w_sample (JInt 1) s0).1 = Ok r
    /\ (r = None <-> detail_record w_sample (JInt 1) (length (gets (trace s0))) = None).
Proof.
  apply (fetch_jikan_details_returns w_sample (JInt 1) s0).
  intros details H. vm_compute in H. injection H as <-. vm_compute. reflexivity.
Defined.

(** ** [int()] reads back what [str()] prints *)







(** ** The episode lister *)




Lemma insert_sorted_perm {A} (key : A -> Z) x l : insert_sorted key x l ≡ₚ x :: l.
Proof.
  induction l as [|y l IH]; [done|]. cbn.
  destruct (key x <=? key y); [done|]. rewrite IH. apply Permutation_swap.
Qed.

Lemma sorted_perm {A} (key : A -> Z) l : sorted key l ≡ₚ l.
Proof.
  induction l as [|x l IH]; [done|]. cbn.
  by rewrite insert_sorted_perm, IH.
Qed.

Lemma insert_sorted_sorted {A} (key : A -> Z) x l :
  StronglySorted (fun a b => key a <= key b) l ->
  StronglySorted (fun a b => key a <= key b) (insert_sorted key x l).
Proof.
  induction 1 as [|y l Hl IH Hy]; cbn; [by repeat constructor|].
  destruct (key x <=? key y) eqn:Hxy.
  - apply Z.leb_le in Hxy. constructor; [by constructor|].
    constructor; [done|]. eapply Forall_impl; [exact Hy|]. cbn. lia.
  - apply Z.leb_gt in Hxy. constructor; [done|].
    rewrite insert_sorted_perm. constructor; [lia|done].
Qed.

Lemma sorted_sorted {A} (key : A -> Z) l :
  StronglySorted (fun a b => key a <= key b) (sorted key l).
Proof.
  induction l as [|x l IH]; cbn; [constructor|by apply insert_sorted_sorted].
Qed.

(** Elements with equal keys keep the order they had. *)
Lemma sorted_stable {A} (key : A -> Z) l k :
  List.filter (fun x => key x =? k) (sorted key l) = List.filter (fun x => key x =? k) l.
Proof.
  induction l as [|x l IH]; [done|]. cbn [sorted foldr].
  change (foldr (insert_sorted key) [] l) with (sorted key l).
  rewrite <- (app_nil_l (x :: l)) at 1. cbn [app List.filter]. rewrite <- IH.
  assert (Hs := sorted_sorted key l). revert Hs.
  generalize (sorted key l) as m. clear IH l.
  induction m as [|y m IH]; [done|]. intros Hs. cbn [insert_sorted].
  apply StronglySorted_inv in Hs as [Hm Hy].
  destruct (key x <=? key y) eqn:Hxy; [done|]. apply Z.leb_gt in Hxy.
  cbn [List.filter]. rewrite (IH Hm).
  destruct (key y =? k) eqn:Hyk; destruct (key x =? k) eqn:Hxk; try done.
  apply Z.eqb_eq in Hyk, Hxk. lia.
Qed.

(** [proxy_get] never raises and never touches the file system. *)
Lemma proxy_get_attempt_returns w url retries delay attempt s :
  exists r s', proxy_get_attempt w url retries delay attempt s = (Ok r, s')
               /\ fs s' = fs s.
Proof.
  unfold proxy_get_attempt, try_except, bind, requests_get, raise_for_status.
  destruct (http w _ _) as [|status text]; cbn.
  - by eexists _, _.
  - destruct ((400 <=? status) && (status <? 600)); cbn; by eexists _, _.
Qed.

Lemma proxy_get_loop_returns w url retries delay attempts : forall s,
  exists r s', proxy_get_loop w url retries delay attempts s = (Ok r, s')
               /\ fs s' = fs s.
Proof.
  induction attempts as [|attempt rest IH]; intros s; cbn [proxy_get_loop].
  - by eexists _, _.
  - destruct (proxy_get_attempt_returns w url retries delay attempt s)
      as (r & s1 & Hrun & Hfs).
    rewrite (bind_ok _ _ _ _ _ Hrun). destruct r as [text|].
    + by eexists _, _.
    + destruct (IH s1) as (r & s2 & Hloop & Hfs2).
      exists r, s2. split; [done|congruence].
Qed.

Lemma proxy_get_returns w url retries delay s :
  exists r s', proxy_get w url retries delay s = (Ok r, s') /\ fs s' = fs s.
Proof. apply proxy_get_loop_returns. Qed.

(** What [fetch_episode_list] returns is empty or came out of [sorted]. *)
Lemma fetch_episode_list_ok w anime_data_id s eps s' :
  fetch_episode_list w anime_data_id s = (Ok eps, s') ->
  eps = [] \/ exists anchors extracted,
                mapM (episode_of w) anchors = Ok extracted
                /\ eps = sorted ep_number extracted.
Proof.
  unfold fetch_episode_list.
  destruct (proxy_get_returns w (episode_list_url w anime_data_id) 3 2 s)
    as (txt & s1 & Hget & _).
  rewrite (bind_ok _ _ _ _ _ Hget).
  destruct (negb (nonempty txt)); [intros [= <- _]; by left|].
  unfold bind, try_except, lift, ret, raise, print, emit.
  destruct (json_loads w (or_empty txt)) as [data|]; cbn; [|intros [= <- _]; by left].
  destruct (payload_is_empty data) as [[|]|]; [intros [= <- _]; by left| |done].
  destruct (getitem data "html") as [html|]; [|done].
  destruct (select_in w html "a.ssl-item.ep-item") as [anchors|]; [|done].
  destruct (mapM (episode_of w) anchors) as [extracted|] eqn:Hex; [|done].
  intros [= <- _]. right. by exists anchors, extracted.
Qed.

(** C5. Whatever the order of the anchors in the markup, the list
    [fetch_episode_list] returns is in ascending order of episode
    number; it holds the episodes extracted from the anchors, all of
    them and nothing else. *)
Theorem fetch_episode_list_sorted w anime_data_id s eps s' :
  fetch_episode_list w anime_data_id s = (Ok eps, s') ->
  StronglySorted by_number eps
  /\ (eps = [] \/ exists anchors extracted,
                    mapM (episode_of w) anchors = Ok extracted /\ eps ≡ₚ extracted).
Proof.
  intros [->|(anchors & extracted & Hex & ->)]%fetch_episode_list_ok.
  - split; [constructor|by left].
  - split; [apply sorted_sorted|]. right. exists anchors, extracted.
    split; [done|apply sorted_perm].
Qed.

Lemma fetch_episode_list_sorted_witness :
  StronglySorted by_number bebop_episode_list
  /\ (bebop_episode_list = []
      \/ exists anchors extracted,
           mapM (episode_of w_sample) anchors = Ok extracted
           /\ bebop_episode_list ≡ₚ extracted).
Proof.
  apply (fetch_episode_list_sorted w_sample (Some "27") s0 bebop_episode_list
           (fetch_episode_list w_sample (Some "27") s0).2).
  vm_compute. reflexivity.
Defined.

(** The markup of catalog entry 1 has the numbers 3, 1, none, 2. *)
Example bebop_episode_numbers :
  map ep_number <$> mapM (episode_of w_sample) bebop_episode_anchors = Ok [3; 1; 0; 2]
  /\ map ep_number <$> (fetch_episode_list w_sample (Some "27") s0).1 = Ok [0; 1; 2; 3].
Proof. split; vm_compute; reflexivity. Qed.

(** ** The cross-reference matcher *)

Lemma scan_anchors_none q anchors :
  Forall (fun a => anchor_key a <> q) anchors -> scan_anchors q anchors = Ok None.
Proof.
  induction 1 as [|a rest Ha _ IH]; [done|]. cbn [scan_anchors].
  destruct (String.eqb (anchor_key a) q) eqn:Heq; [|done].
  by apply String.eqb_eq in Heq.
Qed.

Lemma scan_anchors_first q before a rest :
  Forall (fun b => anchor_key b <> q) before -> anchor_key a = q ->
  scan_anchors q (before ++ a :: rest) = Some <$> info_of a.
Proof.
  intros Hbefore Ha. induction Hbefore as [|b before Hb _ IH]; cbn [app scan_anchors].
  - by rewrite (proj2 (String.eqb_eq _ _) Ha).
  - destruct (String.eqb (anchor_key b) q) eqn:Heq; [|done].
    by apply String.eqb_eq in Heq.
Qed.

Lemma resolve_hianime_id_scan w q s html s1 :
  proxy_get w (search_url w (JStr q)) 3 2 s = (Ok (Some html), s1) ->
  html <> "" ->
  resolve_hianime_id w (JStr q) s
  = (scan_anchors (lower (strip q)) (soup_select w html "a.film-poster-ahref"), s1).
Proof.
  intros Hget Hne. unfold resolve_hianime_id. rewrite (bind_ok _ _ _ _ _ Hget).
  cbn [nonempty or_empty]. destruct (String.eqb html "") eqn:Heq.
  { by apply String.eqb_eq in Heq. }
  cbn [negb strip_lower]. unfold bind, lift.
  by destruct (scan_anchors _ _).
Qed.

(** The record built for an anchor that has a title and whose image,
    if it has one, has a [data-src]. *)
Lemma info_of_ok a title :
  attr a "title" = Some title ->
  match tag_img a with Some img => is_Some (assoc "data-src" img) | None => True end ->
  info_of a = Ok (mkInfo (attr a "data-id") (strip title)
                    match tag_img a with
                    | Some img => assoc "data-src" img
                    | None => None
                    end).
Proof.
  intros Htitle Himg. unfold info_of. rewrite Htitle. cbn [mbind result_bind].
  destruct (tag_img a) as [img|]; [|done].
  destruct Himg as [src ->]. done.
Qed.

(** C6. Once the search page has been fetched, [resolve_hianime_id]
    answers with the first anchor whose title, trimmed and lowercased,
    equals the trimmed and lowercased query: anchors before it whose
    title differs in any other way are passed over, and when every
    anchor differs the answer is [None]. *)
Theorem resolve_hianime_id_first_exact_match w q s html s1 :
  proxy_get w (search_url w (JStr q)) 3 2 s = (Ok (Some html), s1) ->
  html <> "" ->
  (forall before a rest,
     soup_select w html "a.film-poster-ahref" = before ++ a :: rest ->
     Forall (differs_from q) before ->
     lower (strip (or_empty (attr a "title"))) = lower (strip q) ->
     resolve_hianime_id w (JStr q) s = (Some <$> info_of a, s1))
  /\ (Forall (differs_from q) (soup_select w html "a.film-poster-ahref") ->
      resolve_hianime_id w (JStr q) s = (Ok None, s1)).
Proof.
  intros Hget Hne. rewrite (resolve_hianime_id_scan _ _ _ _ _ Hget Hne). split.
  - intros before a rest -> Hbefore Ha. by rewrite scan_anchors_first.
  - intros Hall. by rewrite scan_anchors_none.
Qed.

Lemma resolve_hianime_id_first_exact_match_witness :
  resolve_hianime_id w_sample (JStr "Cowboy Bebop") s0
  = (Some <$> info_of bebop_upper_anchor,
     (proxy_get w_sample (search_url w_sample (JStr "Cowboy Bebop")) 3 2 s0).2).
Proof.
  refine (proj1 (resolve_hianime_id_first_exact_match w_sample "Cowboy Bebop" s0
                   bebop_search_html
                   (proxy_get w_sample (search_url w_sample (JStr "Cowboy Bebop")) 3 2 s0).2
                   _ _)
            [bebop_movie_anchor] bebop_upper_anchor [bebop_plain_anchor] _ _ _).
  - vm_compute. reflexivity.
  - vm_compute. discriminate.
  - vm_compute. reflexivity.
  - constructor; [|constructor]. vm_compute. discriminate.
  - vm_compute. reflexivity.
Defined.

Example bebop_match :
  (resolve_hianime_id w_sample (JStr "Cowboy Bebop") s0).1
  = Ok (Some (mkInfo (Some "27") "COWBOY BEBOP" (Some "https://cdn.example/p27.jpg")))
  /\ (resolve_hianime_id w_sample (JStr "Cowboy Bebop: Tengoku no Tobira") s0).1 = Ok None.
Proof. split; vm_compute; reflexivity. Qed.

Example attack_on_titan_matches :
  scan_anchors (lower (strip "Attack on Titan ")) [titled "Attack on Titan!"; titled "attack on titan"]
  = Ok (Some (mkInfo (Some "112") "attack on titan" None))
  /\ scan_anchors (lower (strip "Attack on Titan ")) [titled "Attack on Titan!"; titled "attack-on-titan"]
     = Ok None.
Proof. split; reflexivity. Qed.

(** ** The catalog enumerator *)

Lemma mapM_entry_of_nil items entries :
  mapM entry_of items = Ok entries -> entries = [] -> items = [].
Proof.
  destruct items as [|a rest]; [done|]. cbn [mapM].
  destruct (entry_of a) as [e|]; [|done]. cbn [mbind result_bind].
  destruct (mapM entry_of rest) as [es|]; [|done]. cbn. by intros [= <-].
Qed.

(** One turn of the [while] loop against a catalog that is served. *)
Lemma fetch_all_anime_step w catalog limit fuel page anime_list s :
  serves w catalog ->
  1 <= page <= len catalog / 25 + 2 ->
  fetch_all_anime_loop w limit (S fuel) page anime_list s
  = match page_of catalog page with
    | [] => (Ok (Some anime_list), after s [EvGet (page_url page)])
    | entries =>
        let anime_list' := anime_list ++ entries in
        if len anime_list' >=? limit
        then (Ok (Some anime_list'),
              after s [EvGet (page_url page); EvPrint (MsgPage page (len anime_list'))])
        else fetch_all_anime_loop w limit fuel (page + 1) anime_list'
               (after s [EvGet (page_url page); EvPrint (MsgPage page (len anime_list'));
                         EvSleep 1])
    end.
Proof.
  intros Hserves Hpage.
  destruct (Hserves page (length (gets (trace s))) Hpage)
    as (status & text & fields & items & Hhttp & Hloads & Hdata & Hentries).
  remember (page_of catalog page) as served eqn:Hserved. clear Hserved.
  cbn [fetch_all_anime_loop].
  unfold bind at 1. unfold try_except. unfold bind at 1. unfold requests_get.
  rewrite Hhttp. unfold bind at 1. unfold response_json. cbn [snd].
  rewrite Hloads. unfold ret at 1 2.
  unfold bind at 1. unfold lift at 1. unfold page_is_empty.
  cbn [contains getitem]. rewrite Hdata. cbn [mbind result_bind negb truthy mret result_ret].
  destruct items as [|item items].
  { injection Hentries as <-. unfold ret, after. done. }
  destruct served as [|entry entries].
  { by apply mapM_entry_of_nil in Hentries. }
  cbn [negb]. unfold bind at 1. unfold lift at 1.
  unfold bind at 1. unfold lift at 1. cbn [iterate].
  unfold bind at 1. unfold lift at 1. rewrite Hentries.
  unfold bind at 1. unfold print, emit. cbn [trace fs].
  cbv zeta. unfold after. rewrite <- !app_assoc. cbn [app].
  destruct (len (anime_list ++ entry :: entries) >=? limit); [done|].
  unfold bind at 1. unfold sleep, emit. cbn [trace fs].
  by rewrite <- !app_assoc.
Qed.

Lemma page_of_after (catalog : list CatalogEntry) (j : nat) :
  take (25 * j) catalog ++ page_of catalog (Z.of_nat j + 1)
  = take (25 * S j) catalog.
Proof.
  unfold page_of. replace (Z.to_nat (Z.of_nat j + 1 - 1)) with j by lia.
  rewrite take_take_drop. f_equal. lia.
Qed.

Lemma page_of_nil (catalog : list CatalogEntry) (j : nat) :
  page_of catalog (Z.of_nat j + 1) = [] <-> (length catalog <= 25 * j)%nat.
Proof.
  unfold page_of. replace (Z.to_nat (Z.of_nat j + 1 - 1)) with j by lia.
  split.
  - intros H. apply (f_equal length) in H. rewrite length_take, length_drop in H.
    cbn [length] in H. lia.
  - intros H. by rewrite drop_ge.
Qed.

Lemma take_same {A} (l : list A) (n m : nat) :
  Nat.min n (length l) = Nat.min m (length l) -> take n l = take m l.
Proof.
  intros H. destruct (Nat.le_gt_cases (length l) n) as [Hn|Hn];
    destruct (Nat.le_gt_cases (length l) m) as [Hm|Hm].
  - by rewrite !take_ge.
  - lia.
  - lia.
  - f_equal. lia.
Qed.

(** The loop, entered after [j] whole pages, ends with the entries
    announced by [fetched_count]. *)
Lemma fetch_all_anime_loop_served w catalog limit :
  serves w catalog ->
  forall fuel j s,
    j = 0%nat
    \/ (Z.min (25 * Z.of_nat j) (len catalog) < limit /\ 25 * (Z.of_nat j - 1) < len catalog) ->
    Z.max limit 0 + 1 <= Z.of_nat fuel + Z.of_nat j ->
    exists s',
      fetch_all_anime_loop w limit fuel (Z.of_nat j + 1) (take (25 * j) catalog) s
      = (Ok (Some (take (fetched_count limit (length catalog)) catalog)), s')
      /\ fs s' = fs s.
Proof.
  intros Hserves. unfold len.
  induction fuel as [|fuel IH]; intros j s Hinv Hfuel.
  { exfalso. lia. }
  rewrite (fetch_all_anime_step w catalog) by (done || (unfold len; Z.div_mod_to_equations; lia)).
  destruct (page_of catalog (Z.of_nat j + 1)) as [|entry entries] eqn:Hpage.
  - apply page_of_nil in Hpage.
    assert (take (25 * j) catalog = take (fetched_count limit (length catalog)) catalog)
      as -> by (apply take_same; unfold fetched_count; Z.div_mod_to_equations; lia).
    by eexists.
  - assert (25 * j < length catalog)%nat as Hmore.
    { destruct (Nat.le_gt_cases (length catalog) (25 * j)) as [Hle|]; [|done].
      apply page_of_nil in Hle. congruence. }
    cbv zeta. rewrite <- Hpage, page_of_after. unfold len. rewrite length_take.
    destruct (Z.of_nat (Nat.min (25 * S j) (length catalog)) >=? limit) eqn:Hstop.
    + rewrite Z.geb_leb in Hstop. apply Z.leb_le in Hstop.
      assert (take (25 * S j) catalog = take (fetched_count limit (length catalog)) catalog)
        as -> by (apply take_same; unfold fetched_count; Z.div_mod_to_equations; lia).
      by eexists.
    + replace (Z.of_nat j + 1 + 1) with (Z.of_nat (S j) + 1) by lia.
      rewrite Z.geb_leb in Hstop. apply Z.leb_gt in Hstop.
      destruct (IH (S j)
                  (after s [EvGet (page_url (Z.of_nat j + 1));
                            EvPrint (MsgPage (Z.of_nat j + 1)
                                       (Z.of_nat (Nat.min (25 * S j) (length catalog))));
                            EvSleep 1]))
        as (s' & Hrun & Hfs); [right; lia|lia|].
      exists s'. by split.
Qed.

Lemma ascending_take k catalog : ascending catalog -> ascending (take k catalog).
Proof.
  unfold ascending. intros H. rewrite <- (take_drop k catalog) in H.
  by apply StronglySorted_app_1_l in H.
Qed.

Lemma ascending_NoDup catalog : ascending catalog -> NoDup (map e_mal_id catalog).
Proof.
  induction 1 as [|a l _ IH Ha]; cbn [map]; constructor; [|done].
  intros (b & Hid & Hb)%list_elem_of_fmap.
  rewrite Forall_forall in Ha. destruct (Ha b Hb) as (x & y & Hx & Hy & Hlt).
  rewrite Hid, Hy in Hx. injection Hx as ->. lia.
Qed.

(** The sample catalog is served by the sample world. *)
Lemma w_catalog_serves : serves w_catalog catalog26.
Proof.
  intros p n Hp. change (len catalog26 / 25 + 2) with 3 in Hp.
  assert (p = 1 \/ p = 2 \/ p = 3) as [->|[->| ->]] by lia;
    do 4 eexists; (split; [vm_compute; reflexivity|]);
    (split; [vm_compute; reflexivity|]); split; vm_compute; reflexivity.
Qed.

(** C1, as the code has it.  The claim fails: with 26 entries
    available and a limit of 1, the whole first page of 25 entries is
    returned, not [min 1 26 = 1] entry. *)
Lemma fetch_all_anime_returns_whole_page :
  serves w_catalog catalog26
  /\ 1 <= len catalog26
  /\ fmap (M := option) length <$> (fetch_all_anime w_catalog 1 s0).1 = Ok (Some 25%nat)
  /\ 25%nat <> Nat.min (Z.to_nat 1) (length catalog26).
Proof.
  split; [exact w_catalog_serves|]. repeat split; vm_compute; congruence.
Qed.

(** C1, amended.  Against a catalog served in pages of 25,
    [fetch_all_anime] returns the first entries of the catalog, whole
    pages until the count reaches the limit:
    [min available (25 * ceil (max limit 1 / 25))] of them.  They are
    in ascending identifier order without duplicates when the catalog
    is, and they number exactly [min limit available] when the limit
    is a positive multiple of 25. *)
Theorem fetch_all_anime_whole_pages w catalog limit s :
  serves w catalog ->
  let fetched := take (fetched_count limit (length catalog)) catalog in
  (exists s', fetch_all_anime w limit s = (Ok (Some fetched), s') /\ fs s' = fs s)
  /\ length fetched = fetched_count limit (length catalog)
  /\ (ascending catalog -> ascending fetched /\ NoDup (map e_mal_id fetched))
  /\ (0 < limit -> limit mod 25 = 0 ->
      length fetched = Nat.min (Z.to_nat limit) (length catalog)).
Proof.
  intros Hserves fetched.
  assert (Hlen : length fetched = fetched_count limit (length catalog)).
  { unfold fetched. rewrite length_take. unfold fetched_count. lia. }
  split; [|split; [exact Hlen|split]].
  - unfold fetch_all_anime.
    apply (fetch_all_anime_loop_served w catalog limit Hserves _ 0%nat s); [by left|lia].
  - intros Hasc. split; [by apply ascending_take|].
    by apply ascending_NoDup, ascending_take.
  - intros Hpos Hmod. rewrite Hlen. unfold fetched_count.
    Z.div_mod_to_equations. lia.
Qed.

Lemma fetch_all_anime_whole_pages_witness :
  let fetched := take (fetched_count 26 (length catalog26)) catalog26 in
  (exists s', fetch_all_anime w_catalog 26 s0 = (Ok (Some fetched), s') /\ fs s' = fs s0)
  /\ length fetched = fetched_count 26 (length catalog26)
  /\ (ascending catalog26 -> ascending fetched /\ NoDup (map e_mal_id fetched))
  /\ (0 < 26 -> 26 mod 25 = 0 ->
      length fetched = Nat.min (Z.to_nat 26) (length catalog26)).
Proof.
  apply (fetch_all_anime_whole_pages w_catalog catalog26 26 s0).
  exact w_catalog_serves.
Defined.

(** A page that is not empty yields at least one entry. *)
Lemma page_entries_nonempty res data items entries :
  page_is_empty res = Ok false ->
  getitem res "data" = Ok data ->
  iterate data = Ok items ->
  mapM entry_of items = Ok entries ->
  entries <> [].
Proof.
  unfold page_is_empty. intros Hempty Hdata Hitems Hentries ->.
  apply mapM_entry_of_nil in Hentries; [|done]. subst items.
  destruct (contains "data" res) as [[|]|]; cbn in Hempty; try done.
  rewrite Hdata in Hempty. cbn in Hempty. injection Hempty as Htruthy.
  apply negb_false_iff in Htruthy.
  destruct data as [| | | |text|elements|fields]; try done; cbn in *.
  - destruct text; [done|]. done.
  - injection Hitems as ->. done.
  - destruct fields; [done|]. done.
Qed.

(** The loop is never cut short: with [fuel] above what is left to
    reach [limit], it ends by itself or raises. *)
Lemma fetch_all_anime_loop_ends w limit : forall fuel page anime_list s,
  limit + 1 <= Z.of_nat fuel + len anime_list -> (1 <= fuel)%nat ->
  (fetch_all_anime_loop w limit fuel page anime_list s).1 <> Ok None.
Proof.
  induction fuel as [|fuel IH]; intros page anime_list s Hfuel Hpos; [lia|].
  cbn [fetch_all_anime_loop].
  unfold bind at 1.
  destruct (try_except _ _ _ s) as [[[res|]|e] s1]; [|done|done].
  unfold bind at 1. unfold lift at 1.
  destruct (page_is_empty res) as [[|]|e] eqn:Hempty; [done| |done].
  unfold bind at 1. unfold lift at 1.
  destruct (getitem res "data") as [data|e] eqn:Hdata; [|done].
  unfold bind at 1. unfold lift at 1.
  destruct (iterate data) as [items|e] eqn:Hitems; [|done].
  unfold bind at 1. unfold lift at 1.
  destruct (mapM entry_of items) as [entries|e] eqn:Hentries; [|done].
  assert (Hne := page_entries_nonempty _ _ _ _ Hempty Hdata Hitems Hentries).
  unfold bind at 1. unfold print, emit. cbv zeta.
  destruct (len (anime_list ++ entries) >=? limit) eqn:Hstop; [done|].
  rewrite Z.geb_leb in Hstop. apply Z.leb_gt in Hstop.
  unfold bind at 1. unfold sleep, emit.
  assert (len anime_list + 1 <= len (anime_list ++ entries)).
  { unfold len. rewrite length_app. destruct entries; [done|]. cbn [length]. lia. }
  apply IH; lia.
Qed.

(** [fetch_all_anime] always comes back: with a list or an exception. *)
Lemma fetch_all_anime_ends w limit s : (fetch_all_anime w limit s).1 <> Ok None.
Proof.
  unfold fetch_all_anime. apply fetch_all_anime_loop_ends; unfold len; cbn [length]; lia.
Qed.

(** ** Paths of the output files *)

Lemma split_slash_nonempty s : split_slash s <> [].
Proof.
  destruct s as [|a s]; [done|]. cbn [split_slash].
  destruct (Ascii.eqb a "/"); [done|]. by destruct (split_slash s).
Qed.

Lemma append_cons a s t : String a s +:+ t = String a (s +:+ t).
Proof. reflexivity. Qed.

Lemma append_assoc s t u : (s +:+ t) +:+ u = s +:+ t +:+ u.
Proof. induction s as [|a s IH]; [done|]. by rewrite !append_cons, IH. Qed.

Lemma split_slash_app folder name :
  split_slash name = [name] ->
  split_slash (folder +:+ "/" +:+ name) = split_slash folder ++ [name].
Proof.
  intros Hname. induction folder as [|a folder IH].
  - change (split_slash ("" +:+ "/" +:+ name)) with ("" :: split_slash name).
    by rewrite Hname.
  - rewrite append_cons. cbn [split_slash]. destruct (Ascii.eqb a "/").
    + by rewrite IH.
    + rewrite IH. destruct (split_slash folder) eqn:Hsplit; [|done].
      by apply split_slash_nonempty in Hsplit.
Qed.

Lemma ends_with_slash_inv folder :
  ends_with_slash folder = true -> exists stem, folder = stem +:+ "/".
Proof.
  induction folder as [|a folder IH]; [done|]. cbn [ends_with_slash].
  destruct folder as [|b folder].
  - intros ->%Ascii.eqb_eq. by exists "".
  - intros [stem ->]%IH. by exists (String a stem).
Qed.

Lemma starts_with_slash_app a b :
  a <> "" -> starts_with_slash (a +:+ b) = starts_with_slash a.
Proof. by destruct a. Qed.

Lemma filter_is_name_app l name :
  is_name name = true -> List.filter is_name (l ++ [name]) = List.filter is_name l ++ [name].
Proof. intros H. rewrite List.filter_app. cbn. by rewrite H. Qed.

(** The file [name] in [folder] lies directly below [folder]. *)
Lemma components_path_join folder name :
  split_slash name = [name] -> is_name name = true -> starts_with_slash name = false ->
  components (path_join folder name) = components folder ++ [name].
Proof.
  intros Hsplit Hname Hrel. unfold path_join. rewrite Hrel.
  destruct (String.eqb folder "") eqn:Hempty.
  { apply String.eqb_eq in Hempty. subst folder. cbn [orb].
    change ("" +:+ name) with name.
    unfold components. rewrite Hrel, Hsplit. cbn. by rewrite Hname. }
  assert (folder <> "") as Hne by (intros ->; done).
  cbn [orb]. destruct (ends_with_slash folder) eqn:Hslash.
  - destruct (ends_with_slash_inv _ Hslash) as [stem ->].
    unfold components.
    assert (forall x, starts_with_slash ((stem +:+ "/") +:+ x) = starts_with_slash (stem +:+ "/"))
      as Hstart by (intros x; by apply starts_with_slash_app).
    rewrite Hstart, append_assoc.
    rewrite split_slash_app by done.
    change (stem +:+ "/") with (stem +:+ "/" +:+ "").
    rewrite (split_slash_app stem "") by done.
    rewrite !List.filter_app. cbn [List.filter is_name String.eqb orb negb].
    rewrite Hname. by rewrite app_nil_r, app_assoc.
  - unfold components. rewrite starts_with_slash_app by done.
    rewrite split_slash_app by done. rewrite filter_is_name_app by done.
    by rewrite app_assoc.
Qed.

Lemma meta_path folder :
  components (path_join folder "meta.json") = components folder ++ ["meta.json"].
Proof. by apply components_path_join. Qed.

Lemma episodes_path folder :
  components (path_join folder "episodes.json") = components folder ++ ["episodes.json"].
Proof. by apply components_path_join. Qed.

(** ** Effects on the file system *)

Create HintDb keeps discriminated.

Lemma keeps_fs_ret {A} (a : A) : keeps_fs (ret a).
Proof. by intros s r s' [= _ <-]. Qed.

Lemma keeps_fs_raise {A} e : keeps_fs (@raise A e).
Proof. by intros s r s' [= _ <-]. Qed.

Lemma keeps_fs_lift {A} (x : result A) : keeps_fs (lift x).
Proof. by intros s r s' [= _ <-]. Qed.

Lemma keeps_fs_emit e : keeps_fs (emit e).
Proof. by intros s r s' [= _ <-]. Qed.

Lemma keeps_fs_print m : keeps_fs (print m).
Proof. apply keeps_fs_emit. Qed.

Lemma keeps_fs_sleep n : keeps_fs (sleep n).
Proof. apply keeps_fs_emit. Qed.

Lemma keeps_fs_bind {A B} (m : M A) (k : A -> M B) :
  keeps_fs m -> (forall a, keeps_fs (k a)) -> keeps_fs (bind m k).
Proof.
  intros Hm Hk s r s'. unfold bind.
  destruct (m s) as [[a|e] s1] eqn:Hrun.
  - intros Hrest. rewrite (Hk _ _ _ _ Hrest). by eapply Hm.
  - intros [= _ <-]. by eapply Hm.
Qed.

Lemma keeps_fs_try_except {A} (body : M A) catches handler :
  keeps_fs body -> (forall e, keeps_fs (handler e)) ->
  keeps_fs (try_except body catches handler).
Proof.
  intros Hbody Hhandler s r s'. unfold try_except.
  destruct (body s) as [[a|e] s1] eqn:Hrun.
  - intros [= _ <-]. by eapply Hbody.
  - destruct (catches e).
    + intros Hrest. rewrite (Hhandler _ _ _ _ Hrest). by eapply Hbody.
    + intros [= _ <-]. by eapply Hbody.
Qed.

Lemma keeps_fs_requests_get w url : keeps_fs (requests_get w url).
Proof.
  intros s r s'. unfold requests_get. by destruct (http w url _); intros [= _ <-].
Qed.

Lemma keeps_fs_response_json w res : keeps_fs (response_json w res).
Proof.
  unfold response_json. destruct (json_loads w res.2);
    [apply keeps_fs_ret|apply keeps_fs_raise].
Qed.

#[local] Hint Resolve keeps_fs_ret keeps_fs_raise keeps_fs_lift keeps_fs_print
  keeps_fs_sleep keeps_fs_requests_get keeps_fs_response_json : keeps.

Ltac keeps_fs_step :=
  lazymatch goal with
  | |- keeps_fs (bind _ _) => apply keeps_fs_bind; [|intros ?]
  | |- keeps_fs (try_except _ _ _) => apply keeps_fs_try_except; [|intros ?]
  | |- keeps_fs (match ?x with _ => _ end) => destruct x
  | |- keeps_fs (if ?x then _ else _) => destruct x
  | |- _ => solve [auto with keeps]
  end.

Lemma keeps_fs_proxy_get w url retries delay : keeps_fs (proxy_get w url retries delay).
Proof.
  intros s r s' Hrun.
  destruct (proxy_get_returns w url retries delay s) as (r1 & s1 & Hrun1 & Hfs).
  congruence.
Qed.

Lemma keeps_fs_fetch_jikan_details w mal_id : keeps_fs (fetch_jikan_details w mal_id).
Proof. unfold fetch_jikan_details. repeat keeps_fs_step. Qed.

Lemma keeps_fs_resolve_hianime_id w query : keeps_fs (resolve_hianime_id w query).
Proof.
  unfold resolve_hianime_id. apply keeps_fs_bind; [apply keeps_fs_proxy_get|intros html].
  repeat keeps_fs_step.
Qed.

Lemma keeps_fs_fetch_episode_list w anime_data_id :
  keeps_fs (fetch_episode_list w anime_data_id).
Proof.
  unfold fetch_episode_list. apply keeps_fs_bind; [apply keeps_fs_proxy_get|intros txt].
  repeat keeps_fs_step.
Qed.

Lemma keeps_fs_fetch_all_anime_loop w limit fuel : forall page anime_list,
  keeps_fs (fetch_all_anime_loop w limit fuel page anime_list).
Proof.
  induction fuel as [|fuel IH]; intros page anime_list; cbn [fetch_all_anime_loop];
    [apply keeps_fs_ret|].
  repeat (apply IH || keeps_fs_step).
Qed.

(** ** What [fetch_full_anime] leaves on disk *)

Lemma mkdirs_other todo : forall base s r s' q,
  mkdirs base todo s = (r, s') ->
  (length (base ++ todo) < length q)%nat ->
  fs s' !! q = fs s !! q.
Proof.
  induction todo as [|c rest IH]; intros base s r s' q Hrun Hlen; cbn [mkdirs] in Hrun.
  - by injection Hrun as _ <-.
  - assert (length ((base ++ [c]) ++ rest) < length q)%nat as Hlen'
      by (by rewrite <- app_assoc).
    destruct (is_root (base ++ [c])); [by eapply IH|].
    destruct (fs s !! (base ++ [c])) as [[|content]|].
    + by eapply IH.
    + by injection Hrun as _ <-.
    + rewrite (IH _ _ _ _ _ Hrun Hlen'). cbn [fs].
      apply lookup_insert_ne. intros <-. rewrite !length_app in Hlen. cbn in Hlen. lia.
Qed.

Lemma all_dirs_full m todo : forall base,
  all_dirs m base todo = true -> is_dir m base = true -> is_dir m (base ++ todo) = true.
Proof.
  induction todo as [|c rest IH]; intros base Hall Hbase; cbn [all_dirs] in Hall.
  - by rewrite app_nil_r.
  - apply andb_true_iff in Hall as [Hc Hrest].
    replace (base ++ c :: rest) with ((base ++ [c]) ++ rest) by (by rewrite <- app_assoc).
    by apply IH.
Qed.

Lemma os_makedirs_ok folder s s' :
  os_makedirs folder s = (Ok tt, s') ->
  is_dir (fs s') (components folder) = true
  /\ (forall q v, fs s !! q = Some v -> fs s' !! q = Some v)
  /\ (forall q, (length (components folder) < length q)%nat -> fs s' !! q = fs s !! q).
Proof.
  unfold os_makedirs. destruct (String.eqb folder ""); [done|]. intros Hrun.
  split; [|split].
  - apply (all_dirs_full _ _ []); [by eapply mkdirs_all_dirs|done].
  - intros q v. by eapply mkdirs_keeps.
  - intros q Hq. by eapply mkdirs_other.
Qed.

Lemma save_json_ok data folder filename s s' :
  save_json data folder filename s = (Ok tt, s') ->
  exists s1,
    os_makedirs folder s = (Ok tt, s1)
    /\ is_dir (fs s1) (components (path_join folder filename)) = false
    /\ fs s' = <[components (path_join folder filename) := FsFile (json_dumps data)]> (fs s1).
Proof.
  unfold save_json. unfold bind at 1.
  destruct (os_makedirs folder s) as [[[]|e] s1]; [|done].
  unfold bind at 1.
  destruct (write_file _ _ s1) as [[[]|e] s2] eqn:Hw; [|done].
  intros [= <-]. apply write_file_ok in Hw as (-> & _ & _ & _ & Hself).
  by exists s1.
Qed.

Lemma longer_ne {A} (l : list A) x : l ++ [x] <> l.
Proof. intros H. apply (f_equal length) in H. rewrite length_app in H. cbn in H. lia. Qed.

(** The last four statements of [fetch_full_anime], when they run to
    the end: the folder is there, [meta.json] holds the metadata, and
    [episodes.json] holds the episodes if there are any and is
    otherwise as it was. *)
Lemma persist_ok meta (episodes : list Episode) folder s s' :
  (os_makedirs folder;;
   save_json (meta_json meta) folder "meta.json";;
   (match episodes with
    | [] => ret tt
    | _ => save_json (JArr (map episode_json episodes)) folder "episodes.json"
    end);;
   print (MsgDone (m_title meta) (len episodes))) s = (Ok tt, s') ->
  is_dir (fs s') (components folder) = true
  /\ fs s' !! components (path_join folder "meta.json")
     = Some (FsFile (json_dumps (meta_json meta)))
  /\ fs s' !! components (path_join folder "episodes.json")
     = match episodes with
       | [] => fs s !! components (path_join folder "episodes.json")
       | _ => Some (FsFile (json_dumps (JArr (map episode_json episodes))))
       end.
Proof.
  rewrite meta_path, episodes_path.
  unfold bind at 1.
  destruct (os_makedirs folder s) as [[[]|e] s1] eqn:Hmk; [|done].
  apply os_makedirs_ok in Hmk as (Hdir1 & _ & Hother1).
  unfold bind at 1.
  destruct (save_json (meta_json meta) folder "meta.json" s1) as [[[]|e] s2] eqn:Hmeta;
    [|done].
  apply save_json_ok in Hmeta as (s1' & Hmk2 & _ & Hfs2). rewrite meta_path in Hfs2.
  apply os_makedirs_ok in Hmk2 as (Hdir2 & Hkeep2 & Hother2).
  assert (is_dir (fs s2) (components folder) = true) as Hdir.
  { rewrite Hfs2, is_dir_insert_ne; [done|apply longer_ne]. }
  assert (fs s2 !! (components folder ++ ["meta.json"])
          = Some (FsFile (json_dumps (meta_json meta)))) as Hm.
  { rewrite Hfs2. apply lookup_insert_eq. }
  assert (fs s2 !! (components folder ++ ["episodes.json"])
          = fs s !! (components folder ++ ["episodes.json"])) as He.
  { rewrite Hfs2, lookup_insert_ne by (by intros [_ [=]]%app_inj_tail).
    rewrite Hother2, Hother1; [done|..]; rewrite length_app; cbn; lia. }
  unfold bind at 1. destruct episodes as [|episode episodes].
  - unfold ret at 1. intros [= <-]. by cbn [fs].
  - destruct (save_json _ folder "episodes.json" s2) as [[[]|e] s3] eqn:Heps; [|done].
    apply save_json_ok in Heps as (s2' & Hmk3 & _ & Hfs3). rewrite episodes_path in Hfs3.
    apply os_makedirs_ok in Hmk3 as (Hdir3 & Hkeep3 & _).
    intros [= <-]. cbn [fs]. rewrite Hfs3. split; [|split].
    + rewrite is_dir_insert_ne; [done|apply longer_ne].
    + rewrite lookup_insert_ne by (by intros [_ [=]]%app_inj_tail).
      by apply Hkeep3.
    + apply lookup_insert_eq.
Qed.

(** C9, as the code has it.  The claim fails: the metadata of catalog
    entry 20 is resolved, but one episode of its list is numbered
    12.5, the step ends in [ValueError] and no directory and no
    [meta.json] is created. *)
Lemma fetch_full_anime_resolved_without_output :
  (exists meta, (fetch_jikan_details w_sample (JInt 20) s0).1 = Ok (Some meta))
  /\ (fetch_full_anime w_sample (JInt 20) (JStr "Naruto") s0).1 = Raise ValueError
  /\ fs (fetch_full_anime w_sample (JInt 20) (JStr "Naruto") s0).2 = ∅.
Proof.
  split; [eexists; vm_compute; reflexivity|]. split; vm_compute; reflexivity.
Qed.

(** C9, amended.  When the metadata is not resolved, [fetch_full_anime]
    creates nothing.  When it is resolved and the step runs to its end
    (no exception from the matcher, the episode lister or the file
    system), the output folder exists and its [meta.json] holds the
    metadata, whether or not a match or an episode was found;
    [episodes.json] is written when the episode list is not empty and
    left as it was when it is. *)
Theorem fetch_full_anime_output w mal_id title s :
  ((forall meta, (fetch_jikan_details w mal_id s).1 <> Ok (Some meta)) ->
   fs (fetch_full_anime w mal_id title s).2 = fs s)
  /\ (forall meta s1 s',
        fetch_jikan_details w mal_id s = (Ok (Some meta), s1) ->
        fetch_full_anime w mal_id title s = (Ok tt, s') ->
        exists info s2 episodes folder,
          resolve_hianime_id w (m_title meta) s1 = (Ok info, s2)
          /\ match info with
             | Some i => exists s3, fetch_episode_list w (i_id i) s2 = (Ok episodes, s3)
             | None => episodes = []
             end
          /\ output_folder w mal_id meta info = Ok folder
          /\ is_dir (fs s') (components folder) = true
          /\ fs s' !! components (path_join folder "meta.json")
             = Some (FsFile (json_dumps (meta_json meta)))
          /\ fs s' !! components (path_join folder "episodes.json")
             = match episodes with
               | [] => fs s !! components (path_join folder "episodes.json")
               | _ => Some (FsFile (json_dumps (JArr (map episode_json episodes))))
               end).
Proof.
  split.
  - intros Hnone. unfold fetch_full_anime, bind.
    destruct (fetch_jikan_details w mal_id s) as [[[meta|]|e] s1] eqn:Hd; cbn [snd].
    + by destruct (Hnone meta).
    + by eapply keeps_fs_fetch_jikan_details.
    + by eapply keeps_fs_fetch_jikan_details.
  - intros meta s1 s' Hd. unfold fetch_full_anime.
    rewrite (bind_ok _ _ _ _ _ Hd).
    assert (fs s1 = fs s) as Hfs1 by (by eapply keeps_fs_fetch_jikan_details).
    unfold bind at 1.
    destruct (resolve_hianime_id w (m_title meta) s1) as [[info|e] s2] eqn:Hres; [|done].
    assert (fs s2 = fs s1) as Hfs2 by (by eapply keeps_fs_resolve_hianime_id).
    unfold bind at 1. unfold output_folder.
    destruct info as [info|].
    + unfold bind at 1.
      destruct (fetch_episode_list w (i_id info) s2) as [[episodes|e] s3] eqn:Heps; [|done].
      assert (fs s3 = fs s2) as Hfs3 by (by eapply keeps_fs_fetch_episode_list).
      unfold bind at 1. unfold lift at 1.
      destruct (sanitize (m_title meta)) as [name|e]; [|done].
      unfold ret at 1. cbn [fst snd]. intros Hrun.
      apply persist_ok in Hrun as (Hdir & Hmeta & Hfile).
      exists (Some info), s2, episodes. eexists. split; [done|].
      split; [by exists s3|]. split; [reflexivity|]. split; [done|]. split; [done|].
      rewrite Hfile. by rewrite Hfs3, Hfs2, Hfs1.
    + unfold bind at 1. unfold print at 1, emit at 1.
      unfold bind at 1. unfold lift at 1.
      destruct (sanitize (m_title meta)) as [name|e]; [|done].
      unfold ret at 1. cbn [fst snd]. intros Hrun.
      apply (persist_ok meta []) in Hrun as (Hdir & Hmeta & Hfile).
      exists None, s2, []. eexists. split; [done|].
      split; [done|]. split; [reflexivity|]. split; [done|]. split; [done|].
      rewrite Hfile. cbn [fs]. by rewrite Hfs2, Hfs1.
Qed.

Lemma fetch_full_anime_output_witness :
  fs (fetch_full_anime w_dead (JInt 1) (JStr "Cowboy Bebop") s0).2 = fs s0
  /\ exists info s2 episodes folder,
       resolve_hianime_id w_sample (m_title movie_meta)
         (fetch_jikan_details w_sample (JInt 5) s0).2 = (Ok info, s2)
       /\ match info with
          | Some i => exists s3, fetch_episode_list w_sample (i_id i) s2 = (Ok episodes, s3)
          | None => episodes = []
          end
       /\ output_folder w_sample (JInt 5) movie_meta info = Ok folder
       /\ is_dir (fs (fetch_full_anime w_sample (JInt 5) (JStr "Cowboy Bebop") s0).2)
            (components folder) = true
       /\ fs (fetch_full_anime w_sample (JInt 5) (JStr "Cowboy Bebop") s0).2
            !! components (path_join folder "meta.json")
          = Some (FsFile (json_dumps (meta_json movie_meta)))
       /\ fs (fetch_full_anime w_sample (JInt 5) (JStr "Cowboy Bebop") s0).2
            !! components (path_join folder "episodes.json")
          = match episodes with
            | [] => fs s0 !! components (path_join folder "episodes.json")
            | _ => Some (FsFile (json_dumps (JArr (map episode_json episodes))))
            end.
Proof.
  split.
  - apply (proj1 (fetch_full_anime_output w_dead (JInt 1) (JStr "Cowboy Bebop") s0)).
    intros meta. vm_compute. discriminate.
  - apply (proj2 (fetch_full_anime_output w_sample (JInt 5) (JStr "Cowboy Bebop") s0)
             movie_meta (fetch_jikan_details w_sample (JInt 5) s0).2
             (fetch_full_anime w_sample (JInt 5) (JStr "Cowboy Bebop") s0).2).
    + vm_compute. reflexivity.
    + vm_compute. reflexivity.
Defined.

(** The run over entry 1 (a match with episodes) and entry 5 (no
    match): two folders, the first with both files, the second, named
    after the catalog identifier, with [meta.json] only. *)
Example two_entries :
  let run := process_all w_sample
               [mkEntry (JInt 1) (JStr "Cowboy Bebop");
                mkEntry (JInt 5) (JStr "Cowboy Bebop: Tengoku no Tobira")] s0 in
  run.1 = Ok tt
  /\ fs run.2 !! ["anime_data"; "Cowboy_Bebop-27"; "meta.json"]
     = Some (FsFile (json_dumps (meta_json bebop_meta)))
  /\ fs run.2 !! ["anime_data"; "Cowboy_Bebop-27"; "episodes.json"]
     = Some (FsFile (json_dumps (JArr (map episode_json bebop_episode_list))))
  /\ fs run.2 !! ["anime_data"; "Cowboy_Bebop:_Tengoku_no_Tobira-5"; "meta.json"]
     = Some (FsFile (json_dumps (meta_json movie_meta)))
  /\ fs run.2 !! ["anime_data"; "Cowboy_Bebop:_Tengoku_no_Tobira-5"; "episodes.json"]
     = None.
Proof. cbv zeta. repeat apply conj; vm_compute; reflexivity. Qed.

(** ** Which exceptions leave a step *)

Lemma pure_ok {A} P (a : A) : pure_raises_only P (Ok a).
Proof. by intros e. Qed.

Lemma pure_raise {A} (P : exn -> Prop) e : P e -> pure_raises_only P (@Raise A e).
Proof. by intros He e' [= <-]. Qed.

Lemma pure_bind {A B} P (r : result A) (f : A -> result B) :
  pure_raises_only P r -> (forall a, pure_raises_only P (f a)) ->
  pure_raises_only P (r ≫= f).
Proof.
  intros Hr Hf e. destruct r as [a|e']; cbn.
  - apply Hf.
  - intros [= <-]. by apply Hr.
Qed.

Lemma pure_fmap {A B} P (r : result A) (f : A -> B) :
  pure_raises_only P r -> pure_raises_only P (f <$> r).
Proof.
  intros Hr e. destruct r as [a|e']; cbn; [done|]. intros [= <-]. by apply Hr.
Qed.

Lemma pure_mapM {A B} P (f : A -> result B) l :
  (forall a, pure_raises_only P (f a)) -> pure_raises_only P (mapM f l).
Proof.
  intros Hf. induction l as [|a l IH]; cbn [mapM]; [apply pure_ok|].
  apply pure_bind; [apply Hf|intros b].
  apply pure_bind; [apply IH|intros bs]. apply pure_ok.
Qed.

Ltac pure_step :=
  lazymatch goal with
  | |- pure_raises_only _ (mbind _ _) => apply pure_bind; [|intros ?]
  | |- pure_raises_only _ (fmap _ _) => apply pure_fmap
  | |- pure_raises_only _ (mapM _ _) => apply pure_mapM; intros ?
  | |- pure_raises_only _ (mret _) => apply pure_ok
  | |- pure_raises_only _ (Ok _) => apply pure_ok
  | |- pure_raises_only _ (Raise _) => apply pure_raise; by split
  | |- pure_raises_only _ (match ?x with _ => _ end) => destruct x
  | |- pure_raises_only _ (if ?x then _ else _) => destruct x
  end.

Ltac pure_solve := repeat pure_step.

Lemma pure_getitem v key : pure_raises_only not_io_failure (getitem v key).
Proof. unfold getitem. pure_solve. Qed.

Lemma pure_dict_get v key d : pure_raises_only not_io_failure (dict_get v key d).
Proof. unfold dict_get. pure_solve. Qed.

Lemma pure_iterate v : pure_raises_only not_io_failure (iterate v).
Proof. unfold iterate. pure_solve. Qed.

Lemma pure_contains key v : pure_raises_only not_io_failure (contains key v).
Proof. unfold contains. pure_solve. Qed.

Lemma pure_names_of details field : pure_raises_only not_io_failure (names_of details field).
Proof.
  unfold names_of.
  apply pure_bind; [apply pure_dict_get|intros v].
  apply pure_bind; [apply pure_iterate|intros items].
  apply pure_mapM. intros s. apply pure_getitem.
Qed.

Lemma pure_project_details mal_id details :
  pure_raises_only not_io_failure (project_details mal_id details).
Proof.
  unfold project_details, py_or.
  repeat first
    [ apply pure_ok
    | apply pure_getitem
    | apply pure_dict_get
    | apply pure_names_of
    | pure_step ].
Qed.

Lemma pure_strip_lower query : pure_raises_only not_io_failure (strip_lower query).
Proof. unfold strip_lower. pure_solve. Qed.

Lemma pure_sanitize title : pure_raises_only not_io_failure (sanitize title).
Proof. unfold sanitize. pure_solve. Qed.

Lemma pure_info_of a : pure_raises_only not_io_failure (info_of a).
Proof. unfold info_of. pure_solve. Qed.

Lemma pure_scan_anchors q anchors : pure_raises_only not_io_failure (scan_anchors q anchors).
Proof.
  induction anchors as [|a rest IH]; cbn [scan_anchors]; [apply pure_ok|].
  destruct (String.eqb _ _); [|done]. apply pure_fmap, pure_info_of.
Qed.

Lemma pure_payload_is_empty data : pure_raises_only not_io_failure (payload_is_empty data).
Proof.
  unfold payload_is_empty. repeat first [apply pure_dict_get | pure_step].
Qed.

Lemma pure_page_is_empty res : pure_raises_only not_io_failure (page_is_empty res).
Proof.
  unfold page_is_empty. repeat first [apply pure_contains | apply pure_getitem | pure_step].
Qed.

Lemma pure_select_in w markup selector :
  pure_raises_only not_io_failure (select_in w markup selector).
Proof. unfold select_in. pure_solve. Qed.

Lemma pure_episode_of w a : pure_raises_only not_io_failure (episode_of w a).
Proof. unfold episode_of, episode_number. pure_solve. Qed.

Lemma pure_entry_of a : pure_raises_only not_io_failure (entry_of a).
Proof. unfold entry_of. repeat first [apply pure_getitem | pure_step]. Qed.

Lemma raises_only_ret {A} P (a : A) : raises_only P (ret a).
Proof. by intros s e s'. Qed.

Lemma raises_only_raise {A} (P : exn -> Prop) e : P e -> raises_only P (@raise A e).
Proof. by intros He s e' s' [= <- _]. Qed.

Lemma raises_only_lift {A} P (r : result A) : pure_raises_only P r -> raises_only P (lift r).
Proof. intros Hr s e s' [= -> _]. by apply Hr. Qed.

Lemma raises_only_emit P ev : raises_only P (emit ev).
Proof. by intros s e s'. Qed.

Lemma raises_only_bind {A B} P (m : M A) (k : A -> M B) :
  raises_only P m -> (forall a, raises_only P (k a)) -> raises_only P (bind m k).
Proof.
  intros Hm Hk s e s'. unfold bind. destruct (m s) as [[a|e'] s1] eqn:Hrun.
  - apply Hk.
  - intros [= <- _]. by eapply Hm.
Qed.

(** A handler that catches everything, or everything the body raises. *)
Lemma raises_only_try_except {A} P (body : M A) catches handler :
  (forall s e s', body s = (Raise e, s') -> catches e = true) ->
  (forall e, raises_only P (handler e)) ->
  raises_only P (try_except body catches handler).
Proof.
  intros Hcaught Hhandler s e s'. unfold try_except.
  destruct (body s) as [[a|e'] s1] eqn:Hrun; [done|].
  rewrite (Hcaught _ _ _ Hrun). apply Hhandler.
Qed.

Lemma raises_only_proxy_get P w url retries delay :
  raises_only P (proxy_get w url retries delay).
Proof.
  intros s e s' Hrun.
  destruct (proxy_get_returns w url retries delay s) as (r & s1 & Hok & _). congruence.
Qed.

Lemma raises_only_mkdirs todo : forall base, raises_only not_io_failure (mkdirs base todo).
Proof.
  induction todo as [|c rest IH]; intros base s e s'; cbn [mkdirs]; [done|].
  destruct (is_root _); [apply IH|].
  destruct (fs s !! _) as [[|content]|]; [apply IH| |apply IH].
  by intros [= <- _].
Qed.

Lemma raises_only_os_makedirs folder : raises_only not_io_failure (os_makedirs folder).
Proof.
  unfold os_makedirs. destruct (String.eqb folder "").
  - by apply raises_only_raise.
  - apply raises_only_mkdirs.
Qed.

Lemma raises_only_write_file path content :
  raises_only not_io_failure (write_file path content).
Proof.
  intros s e s'. unfold write_file.
  destruct (_ || _ || _); [by intros [= <- _]|].
  by destruct (fs s !! _) as [[|old]|]; intros [= <- _].
Qed.

Lemma raises_only_save_json data folder filename :
  raises_only not_io_failure (save_json data folder filename).
Proof.
  unfold save_json.
  apply raises_only_bind; [apply raises_only_os_makedirs|intros _].
  apply raises_only_bind; [apply raises_only_write_file|intros _].
  apply raises_only_emit.
Qed.

Ltac raises_step :=
  lazymatch goal with
  | |- raises_only _ (bind _ _) => apply raises_only_bind; [|intros ?]
  | |- raises_only _ (ret _) => apply raises_only_ret
  | |- raises_only _ (print _) => apply raises_only_emit
  | |- raises_only _ (sleep _) => apply raises_only_emit
  | |- raises_only _ (proxy_get _ _ _ _) => apply raises_only_proxy_get
  | |- raises_only _ (save_json _ _ _) => apply raises_only_save_json
  | |- raises_only _ (os_makedirs _) => apply raises_only_os_makedirs
  | |- raises_only _ (lift _) => apply raises_only_lift
  | |- raises_only _ (match ?x with _ => _ end) => destruct x
  | |- raises_only _ (if ?x then _ else _) => destruct x
  end.

Lemma raises_only_fetch_jikan_details w mal_id :
  raises_only not_io_failure (fetch_jikan_details w mal_id).
Proof.
  unfold fetch_jikan_details.
  apply raises_only_bind.
  { apply raises_only_try_except; [done|]. intros e. repeat raises_step. }
  intros [details|]; repeat raises_step. apply pure_project_details.
Qed.

Lemma raises_only_resolve_hianime_id w query :
  raises_only not_io_failure (resolve_hianime_id w query).
Proof.
  unfold resolve_hianime_id. repeat raises_step.
  - apply pure_strip_lower.
  - apply pure_scan_anchors.
Qed.

Lemma raises_only_fetch_episode_list w anime_data_id :
  raises_only not_io_failure (fetch_episode_list w anime_data_id).
Proof.
  unfold fetch_episode_list.
  apply raises_only_bind; [apply raises_only_proxy_get|intros txt].
  destruct (negb (nonempty txt)); [apply raises_only_ret|].
  apply raises_only_bind.
  { apply raises_only_try_except; [|intros e; repeat raises_step].
    intros s e s'. destruct (json_loads w (or_empty txt)); [done|]. by intros [= <- _]. }
  intros [data|]; repeat raises_step.
  - apply pure_payload_is_empty.
  - apply pure_getitem.
  - apply pure_select_in.
  - apply pure_mapM. intros anchor. apply pure_episode_of.
Qed.

Lemma raises_only_fetch_full_anime w mal_id title :
  raises_only not_io_failure (fetch_full_anime w mal_id title).
Proof.
  unfold fetch_full_anime.
  apply raises_only_bind; [apply raises_only_fetch_jikan_details|intros [meta|]];
    [|apply raises_only_ret].
  apply raises_only_bind; [apply raises_only_resolve_hianime_id|intros info].
  apply raises_only_bind.
  { destruct info as [info|].
    - apply raises_only_bind; [apply raises_only_fetch_episode_list|intros episodes].
      repeat raises_step. apply pure_sanitize.
    - repeat raises_step. apply pure_sanitize. }
  intros found. repeat raises_step.
Qed.

Lemma raises_only_process_all w all_anime :
  raises_only not_io_failure (process_all w all_anime).
Proof.
  induction all_anime as [|a rest IH]; cbn [process_all]; [apply raises_only_ret|].
  apply raises_only_bind; [apply raises_only_fetch_full_anime|intros _].
  apply raises_only_bind; [apply raises_only_emit|intros _]. apply IH.
Qed.

(** ** The orchestrator *)

(** C2, as the code has it.  The claim fails: the detail record of
    catalog entry 6 has no [images] object, the [KeyError] leaves
    [fetch_full_anime], and the driving loop ends there: entry 5, next
    in the list, is never requested and nothing is written for it,
    though on its own it is processed and saved. *)
Lemma fetch_full_anime_propagates_key_error :
  let trigun := mkEntry (JInt 6) (JStr "Trigun") in
  let movie := mkEntry (JInt 5) (JStr "Cowboy Bebop: Tengoku no Tobira") in
  (fetch_full_anime w_sample (JInt 6) (JStr "Trigun") s0).1 = Raise (KeyError "images")
  /\ process_all w_sample [trigun; movie] s0
     = (Raise (KeyError "images"),
        mkState [EvGet "https://api.jikan.moe/v4/anime/6/full"] ∅)
  /\ (process_all w_sample [movie] s0).1 = Ok tt
  /\ fs (process_all w_sample [movie] s0).2
       !! ["anime_data"; "Cowboy_Bebop:_Tengoku_no_Tobira-5"; "meta.json"]
     = Some (FsFile (json_dumps (meta_json movie_meta))).
Proof. repeat split; vm_compute; reflexivity. Qed.

(** C2, amended.  The failures the components handle themselves never
    leave the per-item step: [fetch_full_anime] and the loop over the
    entries raise neither a transport failure nor a decoding failure;
    an entry whose details cannot be fetched or decoded is skipped
    without an exception; and after a step that returns, the loop goes
    on with the next entry.  (An exception of another kind raised
    while the record is projected, the match is built, the episodes
    are numbered or the files are written is caught nowhere.) *)
Theorem fetch_full_anime_isolates_io_failures w :
  (forall mal_id title s e s',
     fetch_full_anime w mal_id title s = (Raise e, s') -> not_io_failure e)
  /\ (forall mal_id title s,
        detail_record w mal_id (length (gets (trace s))) = None ->
        (fetch_full_anime w mal_id title s).1 = Ok tt)
  /\ (forall a rest s s1,
        fetch_full_anime w (e_mal_id a) (e_title a) s = (Ok tt, s1) ->
        process_all w (a :: rest) s = process_all w rest (after s1 [EvSleep 1]))
  /\ (forall all_anime s e s',
        process_all w all_anime s = (Raise e, s') -> not_io_failure e).
Proof.
  split; [|split; [|split]].
  - intros mal_id title. apply raises_only_fetch_full_anime.
  - intros mal_id title s Hnone. unfold fetch_full_anime, bind.
    rewrite fetch_jikan_details_run, Hnone. done.
  - intros a rest s s1 Hstep. cbn [process_all].
    by rewrite (bind_ok _ _ _ _ _ Hstep).
  - intros all_anime. apply raises_only_process_all.
Qed.

Lemma fetch_full_anime_isolates_io_failures_witness :
  not_io_failure (KeyError "images")
  /\ (fetch_full_anime w_dead (JInt 1) (JStr "Cowboy Bebop") s0).1 = Ok tt
  /\ process_all w_dead [mkEntry (JInt 1) (JStr "Cowboy Bebop"); mkEntry (JInt 5) JNull] s0
     = process_all w_dead [mkEntry (JInt 5) JNull]
         (after (fetch_full_anime w_dead (JInt 1) (JStr "Cowboy Bebop") s0).2 [EvSleep 1]).
Proof.
  split; [|split].
  - apply (proj1 (fetch_full_anime_isolates_io_failures w_sample)
             (JInt 6) (JStr "Trigun") s0 (KeyError "images")
             (fetch_full_anime w_sample (JInt 6) (JStr "Trigun") s0).2).
    vm_compute. reflexivity.
  - apply (proj1 (proj2 (fetch_full_anime_isolates_io_failures w_dead))).
    reflexivity.
  - apply (proj1 (proj2 (proj2 (fetch_full_anime_isolates_io_failures w_dead)))
             (mkEntry (JInt 1) (JStr "Cowboy Bebop"))).
    vm_compute. reflexivity.
Defined.

(** The whole run comes back: [main] is never cut short by the bound
    on the enumeration loop. *)
Lemma main_ends w s : (main w s).1 <> Ok None.
Proof.
  unfold main, bind.
  destruct (fetch_all_anime w 200 s) as [[[all_anime|]|e] s1] eqn:Hall; cbn [fst].
  - by destruct (process_all w all_anime s1) as [[[]|e] s2].
  - exfalso. apply (fetch_all_anime_ends w 200 s). by rewrite Hall.
  - done.
Qed.

(** The run never changes a file while it enumerates the catalog. *)
Lemma keeps_fs_fetch_all_anime w limit : keeps_fs (fetch_all_anime w limit).
Proof. apply keeps_fs_fetch_all_anime_loop. Qed.

(** * Further properties of the components *)

(** ** [proxy_get] *)








Lemma after_after s events more : after (after s events) more = after s (events ++ more).
Proof. unfold after. cbn [trace fs]. by rewrite <- app_assoc. Qed.



Lemma url_safe_app s t : url_safe (s +:+ t) = url_safe s && url_safe t.
Proof.
  induction s as [|a s IH]; [done|]. rewrite append_cons. cbn [url_safe].
  by rewrite IH, andb_assoc.
Qed.

(** X3. The target URL is appended to the proxy base with every
    character outside [A-Za-z0-9_.-~] percent-encoded: what follows
    [url=] holds unreserved characters and percent signs only, so no
    [&], [?], [#] or [/] of the target reaches the proxy's own query. *)
Theorem quote_leaves_no_reserved_character url : url_safe (quote url) = true.
Proof.
  induction url as [|a url IH]; [done|]. cbn [quote].
  rewrite url_safe_app, IH, andb_true_r.
  destruct a as [[] [] [] [] [] [] [] []]; vm_compute; reflexivity.
Qed.

(** ** [save_json] and the files around it *)

Lemma write_file_keeps path content s r s' q v :
  write_file path content s = (r, s') ->
  fs s !! q = Some v -> q <> components path -> fs s' !! q = Some v.
Proof.
  unfold write_file. intros Hrun Hq Hne.
  destruct (_ || _ || _); [by injection Hrun as _ <-|].
  destruct (fs s !! components path) as [[|old]|];
    injection Hrun as _ <-; cbn [fs]; try done;
    by rewrite lookup_insert_ne.
Qed.

Lemma write_file_keeps_dirs path content s r s' q :
  write_file path content s = (r, s') ->
  fs s !! q = Some FsDir -> fs s' !! q = Some FsDir.
Proof.
  unfold write_file. intros Hrun Hq.
  destruct (_ || _ || _); [by injection Hrun as _ <-|].
  destruct (fs s !! components path) as [[|old]|] eqn:Hp;
    injection Hrun as _ <-; cbn [fs]; try done;
    rewrite lookup_insert_ne; try done; intros <-; congruence.
Qed.

Lemma save_json_keeps data folder filename s r s' q v :
  save_json data folder filename s = (r, s') ->
  fs s !! q = Some v ->
  q <> components (path_join folder filename) \/ v = FsDir ->
  fs s' !! q = Some v.
Proof.
  unfold save_json, os_makedirs. intros Hrun Hq Hother.
  destruct (String.eqb folder ""); [by injection Hrun as _ <-|].
  unfold bind at 1 in Hrun.
  destruct (mkdirs [] (components folder) s) as [[[]|e] s1] eqn:Hmk.
  2:{ injection Hrun as _ <-. by eapply mkdirs_keeps. }
  assert (fs s1 !! q = Some v) as Hq1 by (by eapply mkdirs_keeps).
  unfold bind at 1 in Hrun.
  destruct (write_file _ _ s1) as [[[]|e] s2] eqn:Hw.
  - injection Hrun as _ <-. cbn [fs]. destruct Hother as [Hne| ->].
    + by eapply write_file_keeps.
    + by eapply write_file_keeps_dirs.
  - injection Hrun as _ <-. destruct Hother as [Hne| ->].
    + by eapply write_file_keeps.
    + by eapply write_file_keeps_dirs.
Qed.






Lemma plain_name_inv name :
  plain_name name = true ->
  split_slash name = [name] /\ is_name name = true /\ starts_with_slash name = false.
Proof.
  unfold plain_name. destruct (split_slash name) as [|c [|d l]] eqn:Hsplit; try done.
  intros [->%String.eqb_eq Hname]%andb_true_iff. repeat split; [done|].
  destruct name as [|a name]; [done|]. cbn [starts_with_slash].
  destruct (Ascii.eqb a "/") eqn:Ha.
  - cbn [split_slash] in Hsplit. rewrite Ha in Hsplit.
    injection Hsplit as _ Hnil. by apply split_slash_nonempty in Hnil.
  - apply Ascii.eqb_neq in Ha.
    destruct a as [[] [] [] [] [] [] [] []]; try done.
Qed.

Lemma split_slash_path_join folder name :
  split_slash name = [name] -> starts_with_slash name = false ->
  exists l, split_slash (path_join folder name) = l ++ [name].
Proof.
  intros Hsplit Hrel. unfold path_join. rewrite Hrel.
  destruct (String.eqb folder "") eqn:Hempty.
  { apply String.eqb_eq in Hempty. subst folder. cbn [orb].
    change ("" +:+ name) with name. exists []. by rewrite Hsplit. }
  cbn [orb]. destruct (ends_with_slash folder) eqn:Hslash.
  - destruct (ends_with_slash_inv _ Hslash) as [stem ->].
    rewrite append_assoc, split_slash_app by done. by eexists.
  - rewrite split_slash_app by done. by eexists.
Qed.

Lemma write_file_succeeds path content s (dir : list string) name :
  components path = dir ++ [name] ->
  names_directory path = false ->
  is_root (dir ++ [name]) = false ->
  is_dir (fs s) dir = true ->
  fs s !! (dir ++ [name]) <> Some FsDir ->
  write_file path content s
  = (Ok tt, mkState (trace s) (<[dir ++ [name] := FsFile content]> (fs s))).
Proof.
  intros Hpath Hnames Hroot Hdir Hfree. unfold write_file.
  rewrite Hpath, Hnames, Hroot, removelast_last, Hdir. cbn [orb negb].
  by destruct (fs s !! (dir ++ [name])) as [[|old]|].
Qed.

Lemma plain_name_not_root dir name : plain_name name = true -> is_root (dir ++ [name]) = false.
Proof.
  intros Hplain. destruct dir as [|d [|d' dir]]; cbn; try done.
  destruct (String.eqb name "/") eqn:Hname; [|done].
  apply String.eqb_eq in Hname. by subst name.
Qed.






(** ** [fetch_all_anime] against any server *)

(** The [try] block of the loop: a decoded page, or the diagnostic. *)
Lemma fetch_page_cases w page s :
  (exists res,
     try_except
       (do r <- requests_get w (page_url page);
        do res <- response_json w r;
        ret (Some res))
       (fun _ => true)
       (fun _ => print (MsgJikanPageFailed page);; ret None) s
     = (Ok (Some res), after s [EvGet (page_url page)])
     /\ exists status text,
          http w (page_url page) (length (gets (trace s))) = HttpResponse status text
          /\ json_loads w text = Some res)
  \/ (try_except
        (do r <- requests_get w (page_url page);
         do res <- response_json w r;
         ret (Some res))
        (fun _ => true)
        (fun _ => print (MsgJikanPageFailed page);; ret None) s
      = (Ok None, after s [EvGet (page_url page); EvPrint (MsgJikanPageFailed page)])
      /\ match http w (page_url page) (length (gets (trace s))) with
         | TransportFailure => True
         | HttpResponse _ text => json_loads w text = None
         end).
Proof.
  unfold try_except, bind, requests_get, response_json, after.
  destruct (http w (page_url page) _) as [|status text]; cbn.
  - right. unfold ret. by rewrite <- app_assoc.
  - destruct (json_loads w text) as [res|] eqn:Hloads; cbn.
    + left. exists res. split; [done|]. by exists status, text.
    + right. unfold ret. by rewrite <- app_assoc.
Qed.

Lemma fetch_all_anime_loop_paced w limit : forall fuel page anime_list s,
  exists r events,
    fetch_all_anime_loop w limit fuel page anime_list s = (r, after s events)
    /\ paced 1 true events = true
    /\ (length (gets events) <= Z.to_nat (Z.max 1 (limit - len anime_list)))%nat.
Proof.
  induction fuel as [|fuel IH]; intros page anime_list s.
  { exists (Ok None), []. cbn. unfold ret, after. rewrite app_nil_r.
    destruct s. repeat split; lia. }
  cbn [fetch_all_anime_loop].
  destruct (fetch_page_cases w page s) as [(res & Hrun & _)|[Hrun _]];
    rewrite (bind_ok _ _ _ _ _ Hrun).
  2:{ eexists _, _. split; [reflexivity|]. split; [done|]. cbn. lia. }
  assert (Hone : forall r : result (option (list CatalogEntry)),
            exists r' events,
              (r, after s [EvGet (page_url page)]) = (r', after s events)
              /\ paced 1 true events = true
              /\ (length (gets events) <= Z.to_nat (Z.max 1 (limit - len anime_list)))%nat).
  { intros r. exists r, [EvGet (page_url page)]. repeat split. cbn. lia. }
  unfold bind at 1. unfold lift at 1.
  destruct (page_is_empty res) as [[|]|e] eqn:Hempty; [apply Hone| |apply Hone].
  unfold bind at 1. unfold lift at 1.
  destruct (getitem res "data") as [data|e] eqn:Hdata; [|apply Hone].
  unfold bind at 1. unfold lift at 1.
  destruct (iterate data) as [items|e] eqn:Hitems; [|apply Hone].
  unfold bind at 1. unfold lift at 1.
  destruct (mapM entry_of items) as [entries|e] eqn:Hentries; [|apply Hone].
  assert (Hne := page_entries_nonempty _ _ _ _ Hempty Hdata Hitems Hentries).
  unfold bind at 1. unfold print, emit. cbv zeta. cbn [trace fs after].
  destruct (len (anime_list ++ entries) >=? limit) eqn:Hstop.
  { eexists _, [EvGet (page_url page); EvPrint _]. unfold ret, after.
    rewrite <- app_assoc. split; [reflexivity|]. split; [done|]. cbn. lia. }
  rewrite Z.geb_leb in Hstop. apply Z.leb_gt in Hstop.
  unfold bind at 1. unfold sleep, emit. cbn [trace fs].
  assert (len anime_list + 1 <= len (anime_list ++ entries)) as Hgrow.
  { unfold len. rewrite length_app. destruct entries; [done|]. cbn [length]. lia. }
  destruct (IH (page + 1) (anime_list ++ entries)
              (after s [EvGet (page_url page);
                        EvPrint (MsgPage page (len (anime_list ++ entries)));
                        EvSleep 1]))
    as (r & events & Hrec & Hpaced & Hcount).
  exists r, ([EvGet (page_url page);
              EvPrint (MsgPage page (len (anime_list ++ entries)));
              EvSleep 1] ++ events).
  split; [|split].
  - rewrite <- after_after. rewrite <- Hrec. unfold after. cbn [trace fs].
    by rewrite <- !app_assoc.
  - cbn. done.
  - cbn [app gets List.filter is_get length] in *. unfold gets in *. lia.
Qed.

(** X7. Against any server, honest or not, [fetch_all_anime] ends: the
    [while True] loop returns a list or raises.  It changes no file,
    issues at most [max 1 limit] page requests, and never two of them
    without a one-second pause in between. *)
Theorem fetch_all_anime_ends_paced w limit s :
  exists r events,
    fetch_all_anime w limit s = (r, after s events)
    /\ r <> Ok None
    /\ paced 1 true events = true
    /\ (length (gets events) <= Z.to_nat (Z.max 1 limit))%nat.
Proof.
  destruct (fetch_all_anime_loop_paced w limit (S (Z.to_nat limit)) 1 [] s)
    as (r & events & Hrun & Hpaced & Hcount).
  exists r, events. split; [exact Hrun|]. split; [|split; [done|]].
  - intros ->. apply (fetch_all_anime_ends w limit s).
    unfold fetch_all_anime. by rewrite Hrun.
  - unfold len in Hcount. cbn [length] in Hcount. lia.
Qed.

Lemma fetch_all_anime_step_page w catalog limit fuel page anime_list s :
  serves_page w catalog page ->
  fetch_all_anime_loop w limit (S fuel) page anime_list s
  = match page_of catalog page with
    | [] => (Ok (Some anime_list), after s [EvGet (page_url page)])
    | entries =>
        let anime_list' := anime_list ++ entries in
        if len anime_list' >=? limit
        then (Ok (Some anime_list'),
              after s [EvGet (page_url page); EvPrint (MsgPage page (len anime_list'))])
        else fetch_all_anime_loop w limit fuel (page + 1) anime_list'
               (after s [EvGet (page_url page); EvPrint (MsgPage page (len anime_list'));
                         EvSleep 1])
    end.
Proof.
  intros Hserves.
  destruct (Hserves (length (gets (trace s))))
    as (status & text & fields & items & Hhttp & Hloads & Hdata & Hentries).
  remember (page_of catalog page) as served eqn:Hserved. clear Hserved.
  cbn [fetch_all_anime_loop].
  destruct (fetch_page_cases w page s) as [(res & Hrun & st & tx & Hh & Hl)|[_ Hfail]].
  2:{ rewrite Hhttp in Hfail. congruence. }
  rewrite (bind_ok _ _ _ _ _ Hrun).
  assert (res = JObj fields) as -> by congruence.
  unfold bind at 1. unfold lift at 1. unfold page_is_empty.
  cbn [contains getitem]. rewrite Hdata. cbn [mbind result_bind negb truthy mret result_ret].
  destruct items as [|item items].
  { injection Hentries as <-. done. }
  destruct served as [|entry entries].
  { by apply mapM_entry_of_nil in Hentries. }
  cbn [negb]. unfold bind at 1. unfold lift at 1.
  unfold bind at 1. unfold lift at 1. cbn [iterate].
  unfold bind at 1. unfold lift at 1. rewrite Hentries.
  unfold bind at 1. unfold print, emit. cbn [trace fs].
  cbv zeta. unfold after. cbn [trace fs]. rewrite <- !app_assoc. cbn [app].
  destruct (len (anime_list ++ entry :: entries) >=? limit); [done|].
  unfold bind at 1. unfold sleep, emit. cbn [trace fs].
  by rewrite <- !app_assoc.
Qed.

Lemma fetch_all_anime_loop_cut_by_failure w catalog limit (k : nat) :
  (forall p, 1 <= p <= Z.of_nat k -> serves_page w catalog p) ->
  page_fails w (Z.of_nat k + 1) ->
  (25 * k <= length catalog)%nat ->
  25 * Z.of_nat k < limit ->
  forall (d j : nat) fuel s,
    (j + d = k)%nat -> (d < fuel)%nat ->
    exists events,
      fetch_all_anime_loop w limit fuel (Z.of_nat j + 1) (take (25 * j) catalog) s
      = (Ok (Some (take (25 * k) catalog)), after s events)
      /\ last events = Some (EvPrint (MsgJikanPageFailed (Z.of_nat k + 1))).
Proof.
  intros Hserved Hfails Hfull Hlimit.
  induction d as [|d IH]; intros j fuel s Hj Hfuel;
    (destruct fuel as [|fuel]; [lia|]).
  - replace j with k by lia. cbn [fetch_all_anime_loop].
    destruct (fetch_page_cases w (Z.of_nat k + 1) s)
      as [(res & _ & status & text & Hhttp & Hloads)|[Hrun _]].
    { specialize (Hfails (length (gets (trace s)))). rewrite Hhttp in Hfails. congruence. }
    rewrite (bind_ok _ _ _ _ _ Hrun). by eexists.
  - rewrite (fetch_all_anime_step_page w catalog) by (apply Hserved; lia).
    destruct (page_of catalog (Z.of_nat j + 1)) as [|entry entries] eqn:Hpage.
    { apply page_of_nil in Hpage. lia. }
    cbv zeta. rewrite <- Hpage, page_of_after.
    assert ((len (take (25 * S j) catalog) >=? limit) = false) as ->.
    { rewrite Z.geb_leb. apply Z.leb_gt. unfold len. rewrite length_take. lia. }
    replace (Z.of_nat j + 1 + 1) with (Z.of_nat (S j) + 1) by lia.
    destruct (IH (S j) fuel
                (after s [EvGet (page_url (Z.of_nat j + 1));
                          EvPrint (MsgPage (Z.of_nat j + 1) (len (take (25 * S j) catalog)));
                          EvSleep 1]))
      as (events & -> & Hlast); [lia|lia|].
    rewrite after_after. eexists. split; [reflexivity|].
    by rewrite last_app, Hlast.
Qed.

(** X8. A page request that fails, or whose body is not JSON, ends the
    enumeration without an exception and without a retry: when the
    first [k] pages are served in full below the limit and page
    [k + 1] fails, [fetch_all_anime] returns the [25 * k] entries
    collected so far, after the diagnostic for that page. *)
Theorem fetch_all_anime_keeps_pages_before_failure w catalog limit (k : nat) s :
  (forall p, 1 <= p <= Z.of_nat k -> serves_page w catalog p) ->
  page_fails w (Z.of_nat k + 1) ->
  (25 * k <= length catalog)%nat ->
  25 * Z.of_nat k < limit ->
  exists events,
    fetch_all_anime w limit s = (Ok (Some (take (25 * k) catalog)), after s events)
    /\ last events = Some (EvPrint (MsgJikanPageFailed (Z.of_nat k + 1))).
Proof.
  intros Hserved Hfails Hfull Hlimit. unfold fetch_all_anime.
  apply (fetch_all_anime_loop_cut_by_failure w catalog limit k Hserved Hfails Hfull Hlimit
           k 0%nat); lia.
Qed.

Lemma fetch_all_anime_keeps_pages_before_failure_witness :
  exists events,
    fetch_all_anime w_timeout 200 s0 = (Ok (Some (take (25 * 2) catalog60)), after s0 events)
    /\ last events = Some (EvPrint (MsgJikanPageFailed (Z.of_nat 2 + 1))).
Proof.
  apply (fetch_all_anime_keeps_pages_before_failure w_timeout catalog60 200 2 s0).
  - intros p Hp n. assert (p = 1 \/ p = 2) as [-> | ->] by lia;
      do 4 eexists; (split; [vm_compute; reflexivity|]);
      (split; [vm_compute; reflexivity|]); split; vm_compute; reflexivity.
  - intros n. vm_compute. exact I.
  - vm_compute. lia.
  - lia.
Defined.

(** ** [fetch_jikan_details] *)

Lemma mapM_Forall2 {A B} (f : A -> result B) l k :
  mapM f l = Ok k -> Forall2 (fun a b => f a = Ok b) l k.
Proof.
  revert k. induction l as [|a l IH]; intros k; cbn [mapM].
  - intros [= <-]. constructor.
  - intros (b & Hb & H)%result_bind_ok.
    apply result_bind_ok in H as (bs & Hbs & [= <-]).
    constructor; [done|by apply IH].
Qed.

Lemma names_of_listed fields key names :
  names_of (JObj fields) key = Ok names -> names_listed fields key names.
Proof.
  unfold names_of, names_listed. cbn [dict_get mbind result_bind].
  intros (entries & Hentries & Hnames)%result_bind_ok.
  exists entries. split; [done|]. by apply mapM_Forall2.
Qed.

(** X9. The record [fetch_jikan_details] returns is obtained with one
    direct request and no retry; it is keyed by the identifier asked
    for; each scalar member is the record's own or null when the
    record has none; each taxonomy list holds the [name] of every
    entry, in order, and is empty when the record has no such list;
    and [images] is the [jpg] member of the record's images. *)
Theorem fetch_jikan_details_projection w mal_id s meta s' :
  fetch_jikan_details w mal_id s = (Ok (Some meta), s') ->
  exists fields,
    detail_record w mal_id (length (gets (trace s))) = Some (JObj fields)
    /\ s' = after s [EvGet (details_url w mal_id)]
    /\ m_mal_id meta = mal_id
    /\ [m_synopsis meta; m_type meta; m_episodes meta; m_status meta; m_rating meta;
        m_score meta; m_rank meta; m_popularity meta; m_members meta;
        m_favorites meta; m_duration meta; m_season meta; m_year meta]
       = map (member_or_null fields)
           ["synopsis"; "type"; "episodes"; "status"; "rating"; "score"; "rank";
            "popularity"; "members"; "favorites"; "duration"; "season"; "year"]
    /\ names_listed fields "studios" (m_studios meta)
    /\ names_listed fields "genres" (m_genres meta)
    /\ names_listed fields "themes" (m_themes meta)
    /\ names_listed fields "demographics" (m_demographics meta)
    /\ exists images,
         assoc "images" fields = Some images /\ getitem images "jpg" = Ok (m_images meta).
Proof.
  rewrite fetch_jikan_details_run.
  destruct (detail_record w mal_id _) as [details|]; [|done].
  intros [= Hproj <-]. apply result_fmap_ok in Hproj as (meta' & Hproj & [= <-]).
  destruct (project_details_ok_obj _ _ _ Hproj) as [fields ->].
  exists fields. split; [done|]. split; [done|].
  unfold project_details in Hproj. cbn [dict_get mbind result_bind] in Hproj.
  apply result_bind_ok in Hproj as (title & _ & Hproj).
  apply result_bind_ok in Hproj as (studios & Hstudios & Hproj).
  apply result_bind_ok in Hproj as (genres & Hgenres & Hproj).
  apply result_bind_ok in Hproj as (themes & Hthemes & Hproj).
  apply result_bind_ok in Hproj as (demographics & Hdemographics & Hproj).
  apply result_bind_ok in Hproj as (images & Himages & Hproj).
  apply result_bind_ok in Hproj as (jpg & Hjpg & [= <-]).
  cbn [m_mal_id m_synopsis m_type m_episodes m_status m_rating m_score m_rank
       m_popularity m_members m_favorites m_duration m_season m_year
       m_studios m_genres m_themes m_demographics m_images].
  repeat split; try by apply names_of_listed.
  exists images. split; [|done].
  cbn [getitem] in Himages.
  destruct (assoc "images" fields) as [found|]; [|done]. by injection Himages as ->.
Qed.

Lemma fetch_jikan_details_projection_witness :
  exists fields,
    detail_record w_sample (JInt 1) (length (gets (trace s0))) = Some (JObj fields)
    /\ after s0 [EvGet "https://api.jikan.moe/v4/anime/1/full"]
       = after s0 [EvGet (details_url w_sample (JInt 1))]
    /\ m_mal_id bebop_meta = JInt 1
    /\ [m_synopsis bebop_meta; m_type bebop_meta; m_episodes bebop_meta;
        m_status bebop_meta; m_rating bebop_meta; m_score bebop_meta; m_rank bebop_meta;
        m_popularity bebop_meta; m_members bebop_meta; m_favorites bebop_meta;
        m_duration bebop_meta; m_season bebop_meta; m_year bebop_meta]
       = map (member_or_null fields)
           ["synopsis"; "type"; "episodes"; "status"; "rating"; "score"; "rank";
            "popularity"; "members"; "favorites"; "duration"; "season"; "year"]
    /\ names_listed fields "studios" (m_studios bebop_meta)
    /\ names_listed fields "genres" (m_genres bebop_meta)
    /\ names_listed fields "themes" (m_themes bebop_meta)
    /\ names_listed fields "demographics" (m_demographics bebop_meta)
    /\ exists images,
         assoc "images" fields = Some images
         /\ getitem images "jpg" = Ok (m_images bebop_meta).
Proof.
  apply (fetch_jikan_details_projection w_sample (JInt 1) s0 bebop_meta
           (after s0 [EvGet "https://api.jikan.moe/v4/anime/1/full"])).
  vm_compute. reflexivity.
Defined.

(** ** Trimmed text *)

Lemma rstrip_rstrip s : rstrip (rstrip s) = rstrip s.
Proof.
  induction s as [|a s IH]; [done|]. cbn [rstrip].
  destruct (rstrip s) as [|b r] eqn:Hr.
  - destruct (py_isspace a) eqn:Ha; [done|]. cbn [rstrip]. by rewrite Ha.
  - cbn [rstrip]. cbn [rstrip] in IH. by rewrite IH.
Qed.

Lemma lstrip_lstrip s : lstrip (lstrip s) = lstrip s.
Proof.
  induction s as [|a s IH]; [done|]. cbn [lstrip].
  destruct (py_isspace a) eqn:Ha; [done|]. cbn [lstrip]. by rewrite Ha.
Qed.

Lemma rstrip_lstrip s : rstrip s = s -> rstrip (lstrip s) = lstrip s.
Proof.
  induction s as [|a s IH]; [done|]. intros Hs. cbn [lstrip].
  destruct (py_isspace a) eqn:Ha; [|done].
  apply IH. cbn [rstrip] in Hs. rewrite Ha in Hs.
  destruct (rstrip s) as [|b r]; [done|]. by injection Hs.
Qed.

Lemma strip_strip s : strip (strip s) = strip s.
Proof.
  unfold strip. rewrite rstrip_lstrip by apply rstrip_rstrip. apply lstrip_lstrip.
Qed.

(** ** The record of a match *)

Lemma scan_anchors_some q anchors info :
  scan_anchors q anchors = Ok (Some info) ->
  exists a, a ∈ anchors /\ anchor_key a = q /\ info_of a = Ok info.
Proof.
  induction anchors as [|a rest IH]; [done|]. cbn [scan_anchors].
  destruct (String.eqb (anchor_key a) q) eqn:Hkey.
  - intros (info' & Hinfo & [= <-])%result_fmap_ok.
    exists a. split; [left|]. by apply String.eqb_eq in Hkey.
  - intros (b & Hb & Hrest)%IH. exists b. split; [by right|done].
Qed.

Lemma info_of_inv a info :
  info_of a = Ok info ->
  exists title,
    attr a "title" = Some title
    /\ i_title info = strip title
    /\ i_id info = attr a "data-id"
    /\ i_poster info = match tag_img a with
                       | Some img => assoc "data-src" img
                       | None => None
                       end.
Proof.
  unfold info_of. destruct (attr a "title") as [title|]; [|done].
  cbn [mbind result_bind]. intros (poster & Hposter & [= <-])%result_bind_ok.
  exists title. repeat split. cbn [i_poster].
  destruct (tag_img a) as [img|]; [|by injection Hposter].
  destruct (assoc "data-src" img); [by injection Hposter as ->|done].
Qed.

(** X10. A match returned by [resolve_hianime_id] is built from one
    anchor of the search page: its identifier is the anchor's
    [data-id], its poster the [data-src] of the anchor's image (none
    without an image), and its title the anchor's own title, trimmed
    but in its original case, which equals the query up to case and
    surrounding white space. *)
Theorem resolve_hianime_id_match_record w q s info s' :
  resolve_hianime_id w (JStr q) s = (Ok (Some info), s') ->
  exists html a title,
    proxy_get w (search_url w (JStr q)) 3 2 s = (Ok (Some html), s')
    /\ a ∈ soup_select w html "a.film-poster-ahref"
    /\ attr a "title" = Some title
    /\ i_title info = strip title
    /\ strip (i_title info) = i_title info
    /\ lower (i_title info) = lower (strip q)
    /\ i_id info = attr a "data-id"
    /\ i_poster info = match tag_img a with
                       | Some img => assoc "data-src" img
                       | None => None
                       end.
Proof.
  unfold resolve_hianime_id.
  destruct (proxy_get_returns w (search_url w (JStr q)) 3 2 s) as (html & s1 & Hget & _).
  rewrite (bind_ok _ _ _ _ _ Hget).
  destruct html as [html|]; [|done]. cbn [nonempty or_empty].
  destruct (String.eqb html ""); [done|]. cbn [negb strip_lower].
  unfold bind, lift.
  destruct (scan_anchors _ _) as [[found|]|e] eqn:Hscan; [|done|done].
  intros [= -> ->].
  apply scan_anchors_some in Hscan as (a & Ha & Hkey & Hinfo).
  apply info_of_inv in Hinfo as (title & Htitle & Hstrip & Hid & Hposter).
  exists html, a, title. repeat split; try done.
  - rewrite Hstrip. apply strip_strip.
  - rewrite Hstrip, <- Hkey. unfold anchor_key. by rewrite Htitle.
Qed.

Lemma resolve_hianime_id_match_record_witness :
  exists html a title,
    proxy_get w_sample (search_url w_sample (JStr "Cowboy Bebop")) 3 2 s0
    = (Ok (Some html), (resolve_hianime_id w_sample (JStr "Cowboy Bebop") s0).2)
    /\ a ∈ soup_select w_sample html "a.film-poster-ahref"
    /\ attr a "title" = Some title
    /\ "COWBOY BEBOP" = strip title
    /\ strip "COWBOY BEBOP" = "COWBOY BEBOP"
    /\ lower "COWBOY BEBOP" = lower (strip "Cowboy Bebop")
    /\ Some "27" = attr a "data-id"
    /\ Some "https://cdn.example/p27.jpg"
       = match tag_img a with
         | Some img => assoc "data-src" img
         | None => None
         end.
Proof.
  apply (resolve_hianime_id_match_record w_sample "Cowboy Bebop" s0
           (mkInfo (Some "27") "COWBOY BEBOP" (Some "https://cdn.example/p27.jpg"))
           (resolve_hianime_id w_sample (JStr "Cowboy Bebop") s0).2).
  vm_compute. reflexivity.
Defined.

(** ** The episodes returned *)

(** How [fetch_episode_list] came to return a list. *)
Lemma fetch_episode_list_inv w anime_data_id s eps s' :
  fetch_episode_list w anime_data_id s = (Ok eps, s') ->
  eps = []
  \/ exists text data html extracted,
       proxy_get w (episode_list_url w anime_data_id) 3 2 s = (Ok (Some text), s')
       /\ json_loads w text = Some data
       /\ payload_is_empty data = Ok false
       /\ getitem data "html" = Ok (JStr html)
       /\ mapM (episode_of w) (soup_select w html "a.ssl-item.ep-item") = Ok extracted
       /\ eps = sorted ep_number extracted.
Proof.
  unfold fetch_episode_list.
  destruct (proxy_get_returns w (episode_list_url w anime_data_id) 3 2 s)
    as (txt & s1 & Hget & _).
  rewrite (bind_ok _ _ _ _ _ Hget).
  destruct txt as [text|]; [|intros [= <- _]; by left]. cbn [nonempty or_empty].
  destruct (negb (negb (String.eqb text ""))); [intros [= <- _]; by left|].
  unfold bind, try_except, lift, ret, raise, print, emit.
  destruct (json_loads w text) as [data|] eqn:Hloads; cbn; [|intros [= <- _]; by left].
  destruct (payload_is_empty data) as [[|]|] eqn:Hempty;
    [intros [= <- _]; by left| |done].
  destruct (getitem data "html") as [html|] eqn:Hhtml; [|done].
  destruct html as [| | | |html| |]; try done. cbn [select_in].
  destruct (mapM (episode_of w) _) as [extracted|] eqn:Hex; [|done].
  intros [= <- <-]. right. by exists text, data, html, extracted.
Qed.

Lemma episode_of_inv w a e :
  episode_of w a = Ok e ->
  ep_id e = attr a "data-id"
  /\ ep_title e = strip (or_empty (tag_ep_name a))
  /\ ep_streaming e
     = "https://megaplay.buzz/stream/s-2/" +:+ printed_id (ep_id e) +:+ "/sub".
Proof.
  unfold episode_of. intros (n & _ & [= <-])%result_bind_ok.
  cbn [ep_id ep_title ep_streaming]. repeat split.
  unfold streaming_url. by destruct (attr a "data-id").
Qed.

(** X11. Every episode [fetch_episode_list] returns carries the
    streaming URL made of its own identifier (the text [None] when
    the anchor had no [data-id]) and a title without white space at
    either end. *)
Theorem fetch_episode_list_entries w anime_data_id s eps s' :
  fetch_episode_list w anime_data_id s = (Ok eps, s') ->
  Forall (fun e =>
            ep_streaming e
            = "https://megaplay.buzz/stream/s-2/" +:+ printed_id (ep_id e) +:+ "/sub"
            /\ strip (ep_title e) = ep_title e) eps.
Proof.
  intros [->|(text & data & html & extracted & _ & _ & _ & _ & Hex & ->)]%fetch_episode_list_inv;
    [constructor|].
  rewrite sorted_perm. apply mapM_Forall2 in Hex.
  induction Hex as [|a e anchors extracted Ha _ IH]; constructor; [|done].
  apply episode_of_inv in Ha as (_ & Htitle & Hstream).
  split; [done|]. rewrite Htitle. apply strip_strip.
Qed.

Lemma fetch_episode_list_entries_witness :
  Forall (fun e =>
            ep_streaming e
            = "https://megaplay.buzz/stream/s-2/" +:+ printed_id (ep_id e) +:+ "/sub"
            /\ strip (ep_title e) = ep_title e)
    [mkEpisode None 0 "" "https://megaplay.buzz/stream/s-2/None/sub"].
Proof.
  apply (fetch_episode_list_entries w_odd (Some "44") s0 _
           (fetch_episode_list w_odd (Some "44") s0).2).
  vm_compute. reflexivity.
Defined.

(** X12. The list [fetch_episode_list] returns has one episode for
    each anchor the selector finds in the markup, none dropped and
    none added, and episodes with the same number stay in the order of
    their anchors. *)
Theorem fetch_episode_list_stable w anime_data_id s eps s' :
  fetch_episode_list w anime_data_id s = (Ok eps, s') ->
  eps <> [] ->
  exists html extracted,
    mapM (episode_of w) (soup_select w html "a.ssl-item.ep-item") = Ok extracted
    /\ length eps = length (soup_select w html "a.ssl-item.ep-item")
    /\ forall n,
         List.filter (fun e => ep_number e =? n) eps
         = List.filter (fun e => ep_number e =? n) extracted.
Proof.
  intros [->|(text & data & html & extracted & _ & _ & _ & _ & Hex & ->)]%fetch_episode_list_inv;
    [done|].
  intros _. exists html, extracted. split; [done|]. split.
  - rewrite sorted_perm. apply mapM_Forall2 in Hex. symmetry. by eapply Forall2_length.
  - intros n. apply sorted_stable.
Qed.

Lemma fetch_episode_list_stable_witness :
  exists html extracted,
    mapM (episode_of w_sample) (soup_select w_sample html "a.ssl-item.ep-item") = Ok extracted
    /\ length bebop_episode_list = length (soup_select w_sample html "a.ssl-item.ep-item")
    /\ forall n,
         List.filter (fun e => ep_number e =? n) bebop_episode_list
         = List.filter (fun e => ep_number e =? n) extracted.
Proof.
  apply (fetch_episode_list_stable w_sample (Some "27") s0 bebop_episode_list
           (fetch_episode_list w_sample (Some "27") s0).2).
  - vm_compute. reflexivity.
  - discriminate.
Defined.

(** X13. What [fetch_episode_list] does with a body it cannot use: no
    body or an empty one gives the empty list; a body that is not JSON
    gives the empty list after a diagnostic; a JSON object whose
    [status] or [html] is missing or falsy gives the empty list; but a
    JSON body that is not an object (a list, a string, null) raises
    [AttributeError], which nothing catches. *)
Theorem fetch_episode_list_unusable_body w anime_data_id s txt s1 :
  proxy_get w (episode_list_url w anime_data_id) 3 2 s = (Ok txt, s1) ->
  (nonempty txt = false -> fetch_episode_list w anime_data_id s = (Ok [], s1))
  /\ (forall text,
        txt = Some text -> text <> "" -> json_loads w text = None ->
        fetch_episode_list w anime_data_id s
        = (Ok [], after s1 [EvPrint (MsgEpisodeJSONFailed (printed_id anime_data_id))]))
  /\ (forall text fields,
        txt = Some text -> text <> "" -> json_loads w text = Some (JObj fields) ->
        truthy (member_or_null fields "status") = false
        \/ truthy (member_or_null fields "html") = false ->
        fetch_episode_list w anime_data_id s = (Ok [], s1))
  /\ (forall text data,
        txt = Some text -> text <> "" -> json_loads w text = Some data ->
        (forall fields, data <> JObj fields) ->
        fetch_episode_list w anime_data_id s = (Raise AttributeError, s1)).
Proof.
  intros Hget. unfold fetch_episode_list. rewrite (bind_ok _ _ _ _ _ Hget).
  assert (Hfull : forall text, txt = Some text -> text <> "" -> negb (nonempty txt) = false).
  { intros text -> Hne. cbn. destruct (String.eqb text "") eqn:He; [|done].
    by apply String.eqb_eq in He. }
  split; [|split; [|split]].
  - by intros ->.
  - intros text Htxt Hne Hloads. rewrite (Hfull _ Htxt Hne). subst txt. cbn [or_empty].
    unfold bind, try_except. rewrite Hloads. cbn.
    unfold ret, after. cbn. by destruct anime_data_id.
  - intros text fields Htxt Hne Hloads Hfalsy. rewrite (Hfull _ Htxt Hne). subst txt.
    cbn [or_empty]. unfold bind, try_except, lift. rewrite Hloads. cbn.
    unfold member_or_null in Hfalsy.
    destruct (truthy match assoc "status" fields with Some x => x | None => JNull end);
      cbn; [|done].
    destruct Hfalsy as [Hf|Hf]; [done|]. by rewrite Hf.
  - intros text data Htxt Hne Hloads Hobj. rewrite (Hfull _ Htxt Hne). subst txt.
    cbn [or_empty]. unfold bind, try_except, lift. rewrite Hloads. cbn.
    destruct data as [| | | | | |fields]; try done. by destruct (Hobj fields).
Qed.

Lemma fetch_episode_list_unusable_body_witness :
  fetch_episode_list w_odd (Some "40") s0
  = (Ok [], (proxy_get w_odd (episode_list_url w_odd (Some "40")) 3 2 s0).2)
  /\ fetch_episode_list w_odd (Some "41") s0
     = (Ok [], after (proxy_get w_odd (episode_list_url w_odd (Some "41")) 3 2 s0).2
                 [EvPrint (MsgEpisodeJSONFailed (printed_id (Some "41")))])
  /\ fetch_episode_list w_odd (Some "42") s0
     = (Ok [], (proxy_get w_odd (episode_list_url w_odd (Some "42")) 3 2 s0).2)
  /\ fetch_episode_list w_odd (Some "43") s0
     = (Raise AttributeError,
        (proxy_get w_odd (episode_list_url w_odd (Some "43")) 3 2 s0).2).
Proof.
  split; [|split; [|split]].
  - apply (proj1 (fetch_episode_list_unusable_body w_odd (Some "40") s0 (Some "")
                    _ ltac:(vm_compute; reflexivity))).
    reflexivity.
  - apply (proj1 (proj2 (fetch_episode_list_unusable_body w_odd (Some "41") s0
                           (Some "<html>Bad gateway</html>")
                           _ ltac:(vm_compute; reflexivity)))
             "<html>Bad gateway</html>").
    + reflexivity.
    + discriminate.
    + vm_compute. reflexivity.
  - apply (proj1 (proj2 (proj2 (fetch_episode_list_unusable_body w_odd (Some "42") s0
                                  (Some (json_dumps (JObj [("status", JBool false)])))
                                  _ ltac:(vm_compute; reflexivity))))
             (json_dumps (JObj [("status", JBool false)])) [("status", JBool false)]).
    + reflexivity.
    + vm_compute. discriminate.
    + vm_compute. reflexivity.
    + left. reflexivity.
  - apply (proj2 (proj2 (proj2 (fetch_episode_list_unusable_body w_odd (Some "43") s0
                                  (Some (json_dumps (JArr [])))
                                  _ ltac:(vm_compute; reflexivity))))
             (json_dumps (JArr [])) (JArr [])).
    + reflexivity.
    + vm_compute. discriminate.
    + vm_compute. reflexivity.
    + discriminate.
Defined.

(** ** What a run may touch *)

Lemma spares_keeps_fs {A} (m : M A) : keeps_fs m -> spares m.
Proof. intros Hm s r s' q v Hrun Hq _. by rewrite (Hm _ _ _ Hrun). Qed.

Lemma spares_bind {A B} (m : M A) (k : A -> M B) :
  spares m -> (forall a, spares (k a)) -> spares (bind m k).
Proof.
  intros Hm Hk s r s' q v. unfold bind.
  destruct (m s) as [[a|e] s1] eqn:Hrun; intros Hrest Hq Hv.
  - eapply Hk; [exact Hrest| |done]. by eapply Hm.
  - injection Hrest as _ <-. by eapply Hm.
Qed.

Lemma spares_os_makedirs folder : spares (os_makedirs folder).
Proof.
  intros s r s' q v. unfold os_makedirs.
  destruct (String.eqb folder ""); [by intros [= _ <-]|].
  intros Hrun Hq _. by eapply mkdirs_keeps.
Qed.

Lemma spares_save_json data folder filename :
  plain_name filename = true ->
  (String.eqb filename "meta.json" || String.eqb filename "episodes.json") = true ->
  spares (save_json data folder filename).
Proof.
  intros Hplain Hname s r s' q v Hrun Hq Hv.
  eapply save_json_keeps; [exact Hrun|exact Hq|].
  destruct Hv as [->|Hout]; [by right|left].
  destruct (plain_name_inv _ Hplain) as (Hsplit & Hisname & Hrel).
  rewrite components_path_join by done. intros ->.
  unfold output_name in Hout. rewrite last_snoc in Hout. congruence.
Qed.

Lemma spares_fetch_full_anime w mal_id title : spares (fetch_full_anime w mal_id title).
Proof.
  unfold fetch_full_anime.
  apply spares_bind; [apply spares_keeps_fs, keeps_fs_fetch_jikan_details|].
  intros [meta|]; [|apply spares_keeps_fs, keeps_fs_ret].
  apply spares_bind; [apply spares_keeps_fs, keeps_fs_resolve_hianime_id|intros info].
  apply spares_bind.
  { apply spares_keeps_fs. destruct info as [info|].
    - apply keeps_fs_bind; [apply keeps_fs_fetch_episode_list|intros episodes].
      repeat keeps_fs_step.
    - repeat keeps_fs_step. }
  intros found. cbv zeta.
  apply spares_bind; [apply spares_os_makedirs|intros _].
  apply spares_bind; [by apply spares_save_json|intros _].
  apply spares_bind.
  { destruct found.1; [apply spares_keeps_fs, keeps_fs_ret|by apply spares_save_json]. }
  intros _. apply spares_keeps_fs, keeps_fs_print.
Qed.

Lemma spares_process_all w all_anime : spares (process_all w all_anime).
Proof.
  induction all_anime as [|a rest IH]; cbn [process_all];
    [apply spares_keeps_fs, keeps_fs_ret|].
  apply spares_bind; [apply spares_fetch_full_anime|intros _].
  apply spares_bind; [apply spares_keeps_fs, keeps_fs_sleep|intros _]. apply IH.
Qed.

(** X14. However it ends, the whole run removes nothing from the disk:
    every directory is still a directory afterwards, and every file
    keeps its content unless it is named [meta.json] or
    [episodes.json]. *)
Theorem main_spares_other_files w s q v :
  fs s !! q = Some v ->
  v = FsDir \/ output_name q = false ->
  fs (main w s).2 !! q = Some v.
Proof.
  intros Hq Hv. destruct (main w s) as [r s'] eqn:Hrun.
  revert Hrun Hq Hv. apply spares_bind.
  - apply spares_keeps_fs, keeps_fs_fetch_all_anime.
  - intros [all_anime|]; [|apply spares_keeps_fs, keeps_fs_ret].
    apply spares_bind; [apply spares_process_all|intros _].
    apply spares_keeps_fs, keeps_fs_ret.
Qed.

Lemma main_spares_other_files_witness :
  fs (main w_dead s_disk).2 !! ["anime_data"; "notes.txt"] = Some (FsFile "keep me").
Proof.
  apply (main_spares_other_files w_dead s_disk ["anime_data"; "notes.txt"]).
  - vm_compute. reflexivity.
  - right. reflexivity.
Defined.

(** ** Running a step again *)

Lemma after_nil s : after s [] = s.
Proof. destruct s. unfold after. cbn. by rewrite app_nil_r. Qed.

Lemma oblivious_ret {A} (a : A) : oblivious (ret a).
Proof. exists (Ok a), []. intros s. by rewrite after_nil. Qed.

Lemma oblivious_raise {A} e : oblivious (@raise A e).
Proof. exists (Raise e), []. intros s. by rewrite after_nil. Qed.

Lemma oblivious_lift {A} (x : result A) : oblivious (lift x).
Proof. exists x, []. intros s. by rewrite after_nil. Qed.

Lemma oblivious_emit e : oblivious (emit e).
Proof. by exists (Ok tt), [e]. Qed.

Lemma oblivious_print m : oblivious (print m).
Proof. apply oblivious_emit. Qed.

Lemma oblivious_sleep n : oblivious (sleep n).
Proof. apply oblivious_emit. Qed.

Lemma oblivious_bind {A B} (m : M A) (k : A -> M B) :
  oblivious m -> (forall a, oblivious (k a)) -> oblivious (bind m k).
Proof.
  intros (r & events & Hm) Hk. destruct r as [a|e].
  - destruct (Hk a) as (r' & more & Hka). exists r', (events ++ more).
    intros s. unfold bind. by rewrite Hm, Hka, after_after.
  - exists (Raise e), events. intros s. unfold bind. by rewrite Hm.
Qed.

Lemma oblivious_try_except {A} (body : M A) catches handler :
  oblivious body -> (forall e, oblivious (handler e)) ->
  oblivious (try_except body catches handler).
Proof.
  intros (r & events & Hbody) Hhandler. destruct r as [a|e].
  - exists (Ok a), events. intros s. unfold try_except. by rewrite Hbody.
  - destruct (catches e) eqn:Hc.
    + destruct (Hhandler e) as (r' & more & Hh). exists r', (events ++ more).
      intros s. unfold try_except. by rewrite Hbody, Hc, Hh, after_after.
    + exists (Raise e), events. intros s. unfold try_except. by rewrite Hbody, Hc.
Qed.

Lemma oblivious_requests_get w url : stationary w -> oblivious (requests_get w url).
Proof.
  intros Hw. destruct (http w url 0) as [|status text] eqn:Hout.
  - exists (Raise ConnectionError), [EvGet url]. intros s. unfold requests_get.
    by rewrite (Hw url _ 0%nat), Hout.
  - exists (Ok (status, text)), [EvGet url]. intros s. unfold requests_get.
    by rewrite (Hw url _ 0%nat), Hout.
Qed.

Lemma oblivious_response_json w res : oblivious (response_json w res).
Proof.
  unfold response_json. destruct (json_loads w res.2);
    [apply oblivious_ret|apply oblivious_raise].
Qed.

Lemma oblivious_raise_for_status res : oblivious (raise_for_status res).
Proof.
  unfold raise_for_status. destruct (_ && _); [apply oblivious_raise|apply oblivious_ret].
Qed.

Ltac oblivious_step Hw :=
  lazymatch goal with
  | |- oblivious (bind _ _) => apply oblivious_bind; [|intros ?]
  | |- oblivious (try_except _ _ _) => apply oblivious_try_except; [|intros ?]
  | |- oblivious (requests_get _ _) => apply oblivious_requests_get, Hw
  | |- oblivious (response_json _ _) => apply oblivious_response_json
  | |- oblivious (raise_for_status _) => apply oblivious_raise_for_status
  | |- oblivious (ret _) => apply oblivious_ret
  | |- oblivious (raise _) => apply oblivious_raise
  | |- oblivious (lift _) => apply oblivious_lift
  | |- oblivious (print _) => apply oblivious_print
  | |- oblivious (sleep _) => apply oblivious_sleep
  | |- oblivious (match ?x with _ => _ end) => destruct x
  | |- oblivious (if ?x then _ else _) => destruct x
  end.

Lemma oblivious_proxy_get w url retries delay :
  stationary w -> oblivious (proxy_get w url retries delay).
Proof.
  intros Hw. unfold proxy_get.
  induction (py_range 1 (retries + 1)) as [|attempt rest IH]; cbn [proxy_get_loop].
  - repeat oblivious_step Hw.
  - apply oblivious_bind.
    + unfold proxy_get_attempt. repeat oblivious_step Hw.
    + intros [text|]; [apply oblivious_ret|apply IH].
Qed.

Lemma oblivious_fetch_jikan_details w mal_id :
  stationary w -> oblivious (fetch_jikan_details w mal_id).
Proof. intros Hw. unfold fetch_jikan_details. repeat oblivious_step Hw. Qed.

Lemma oblivious_resolve_hianime_id w query :
  stationary w -> oblivious (resolve_hianime_id w query).
Proof.
  intros Hw. unfold resolve_hianime_id.
  apply oblivious_bind; [by apply oblivious_proxy_get|intros html].
  repeat oblivious_step Hw.
Qed.

Lemma oblivious_fetch_episode_list w anime_data_id :
  stationary w -> oblivious (fetch_episode_list w anime_data_id).
Proof.
  intros Hw. unfold fetch_episode_list.
  apply oblivious_bind; [by apply oblivious_proxy_get|intros txt].
  repeat oblivious_step Hw.
Qed.

Lemma save_json_present data folder filename t m :
  plain_name filename = true ->
  String.eqb folder "" = false ->
  all_dirs m [] (components folder) = true ->
  m !! (components folder ++ [filename]) = Some (FsFile (json_dumps data)) ->
  save_json data folder filename (mkState t m)
  = (Ok tt, mkState (t ++ [EvPrint (MsgSaved filename folder)]) m).
Proof.
  intros Hplain Hfolder Hall Hthere.
  destruct (plain_name_inv _ Hplain) as (Hsplit & Hname & Hrel).
  assert (os_makedirs folder (mkState t m) = (Ok tt, mkState t m)) as Hos.
  { unfold os_makedirs. rewrite Hfolder. by apply mkdirs_noop. }
  assert (write_file (path_join folder filename) (json_dumps data) (mkState t m)
          = (Ok tt, mkState t m)) as Hw.
  { rewrite (write_file_succeeds _ _ _ (components folder) filename).
    - cbn [fs trace]. by rewrite insert_id.
    - by apply components_path_join.
    - unfold names_directory.
      destruct (split_slash_path_join folder filename Hsplit Hrel) as [l ->].
      by rewrite last_snoc, Hname.
    - by apply plain_name_not_root.
    - by apply (all_dirs_full _ _ []).
    - cbn [fs]. by rewrite Hthere. }
  unfold save_json. by rewrite (bind_ok _ _ _ _ _ Hos), (bind_ok _ _ _ _ _ Hw).
Qed.

Lemma save_json_facts data folder filename s s' :
  plain_name filename = true ->
  save_json data folder filename s = (Ok tt, s') ->
  exists s1,
    os_makedirs folder s = (Ok tt, s1)
    /\ String.eqb folder "" = false
    /\ all_dirs (fs s1) [] (components folder) = true
    /\ is_dir (fs s1) (components folder ++ [filename]) = false
    /\ fs s' = <[components folder ++ [filename] := FsFile (json_dumps data)]> (fs s1).
Proof.
  intros Hplain Hrun. destruct (plain_name_inv _ Hplain) as (Hsplit & Hname & Hrel).
  apply save_json_ok in Hrun as (s1 & Hos & Hself & Hfs).
  rewrite components_path_join in Hself, Hfs by done.
  exists s1. split; [done|]. revert Hos. unfold os_makedirs.
  destruct (String.eqb folder ""); [done|]. intros Hmk.
  repeat split; try done. by eapply mkdirs_all_dirs.
Qed.

(** The last four statements of [fetch_full_anime], run again on the
    file system they left, succeed and leave it as it is. *)
Lemma persist_again meta (episodes : list Episode) folder s s' t :
  (os_makedirs folder;;
   save_json (meta_json meta) folder "meta.json";;
   (match episodes with
    | [] => ret tt
    | _ => save_json (JArr (map episode_json episodes)) folder "episodes.json"
    end);;
   print (MsgDone (m_title meta) (len episodes))) s = (Ok tt, s') ->
  exists t',
    (os_makedirs folder;;
     save_json (meta_json meta) folder "meta.json";;
     (match episodes with
      | [] => ret tt
      | _ => save_json (JArr (map episode_json episodes)) folder "episodes.json"
      end);;
     print (MsgDone (m_title meta) (len episodes))) (mkState t (fs s'))
    = (Ok tt, mkState t' (fs s')).
Proof.
  unfold bind at 1.
  destruct (os_makedirs folder s) as [[[]|e] s1] eqn:Hmk; [|done].
  unfold bind at 1.
  destruct (save_json (meta_json meta) folder "meta.json" s1) as [[[]|e] s2] eqn:Hmeta;
    [|done].
  apply save_json_facts in Hmeta as (s1' & _ & Hfolder & Hall1 & Hself1 & Hfs2); [|done].
  assert (all_dirs (fs s2) [] (components folder) = true) as Hall2.
  { rewrite Hfs2. by apply all_dirs_insert. }
  assert (fs s2 !! (components folder ++ ["meta.json"])
          = Some (FsFile (json_dumps (meta_json meta)))) as Hm2.
  { rewrite Hfs2. apply lookup_insert_eq. }
  assert (forall u m, all_dirs m [] (components folder) = true ->
            os_makedirs folder (mkState u m) = (Ok tt, mkState u m)) as Hnoop.
  { intros u m Hall. unfold os_makedirs. rewrite Hfolder. by apply mkdirs_noop. }
  unfold bind at 1. destruct episodes as [|episode episodes].
  - unfold ret at 1. intros [= <-]. cbn [fs]. eexists.
    rewrite (bind_ok _ _ _ _ _ (Hnoop _ _ Hall2)).
    rewrite (bind_ok _ _ _ _ _
               (save_json_present _ _ "meta.json" _ _ eq_refl Hfolder Hall2 Hm2)).
    reflexivity.
  - destruct (save_json _ folder "episodes.json" s2) as [[[]|e] s3] eqn:Heps; [|done].
    apply save_json_facts in Heps as (s2' & Hmk3 & _ & _ & Hself3 & Hfs3); [|done].
    assert (s2' = s2) as ->.
    { destruct s2 as [t2 m2]. cbn [fs] in Hall2. rewrite (Hnoop _ _ Hall2) in Hmk3.
      congruence. }
    intros [= <-]. cbn [fs].
    assert (all_dirs (fs s3) [] (components folder) = true) as Hall3.
    { rewrite Hfs3. by apply all_dirs_insert. }
    assert (fs s3 !! (components folder ++ ["meta.json"])
            = Some (FsFile (json_dumps (meta_json meta)))) as Hm3.
    { rewrite Hfs3, lookup_insert_ne by (by intros [_ [=]]%app_inj_tail). done. }
    assert (fs s3 !! (components folder ++ ["episodes.json"])
            = Some (FsFile (json_dumps (JArr (map episode_json (episode :: episodes))))))
      as He3.
    { rewrite Hfs3. apply lookup_insert_eq. }
    eexists.
    rewrite (bind_ok _ _ _ _ _ (Hnoop _ _ Hall3)).
    rewrite (bind_ok _ _ _ _ _
               (save_json_present _ _ "meta.json" _ _ eq_refl Hfolder Hall3 Hm3)).
    rewrite (bind_ok _ _ _ _ _
               (save_json_present _ _ "episodes.json" _ _ eq_refl Hfolder Hall3 He3)).
    reflexivity.
Qed.

(** X15. Against a server that answers every URL the same way each
    time, a step of the pipeline that has run to its end can be run
    again: the second run ends normally too and leaves every file and
    directory exactly as the first run left it. *)
Theorem fetch_full_anime_again w mal_id title s s1 :
  stationary w ->
  fetch_full_anime w mal_id title s = (Ok tt, s1) ->
  exists s2,
    fetch_full_anime w mal_id title s1 = (Ok tt, s2)
    /\ fs s2 = fs s1.
Proof.
  intros Hw. unfold fetch_full_anime.
  destruct (oblivious_fetch_jikan_details w mal_id Hw) as (r1 & ev1 & H1).
  destruct r1 as [[meta|]|e].
  2:{ rewrite !(bind_ok _ _ _ _ _ (H1 _)). intros [= <-].
      eexists. split; [reflexivity|done]. }
  2:{ by rewrite (bind_raise _ _ _ _ _ (H1 _)). }
  rewrite !(bind_ok _ _ _ _ _ (H1 _)).
  destruct (oblivious_resolve_hianime_id w (m_title meta) Hw) as (r2 & ev2 & H2).
  destruct r2 as [info|e]; [|by rewrite (bind_raise _ _ _ _ _ (H2 _))].
  rewrite !(bind_ok _ _ _ _ _ (H2 _)).
  assert (oblivious
            (match info with
             | Some info =>
                 do episodes <- fetch_episode_list w (i_id info);
                 do name <- lift (sanitize (m_title meta));
                 ret (episodes, name +:+ "-" +:+ py_str w (json_of_opt (i_id info)))
             | None =>
                 print (MsgNoMatch (m_title meta));;
                 do name <- lift (sanitize (m_title meta));
                 ret ([], name +:+ "-" +:+ py_str w mal_id)
             end)) as (r3 & ev3 & H3).
  { destruct info as [info|].
    - apply oblivious_bind; [by apply oblivious_fetch_episode_list|intros episodes].
      repeat oblivious_step Hw.
    - repeat oblivious_step Hw. }
  destruct r3 as [found|e]; [|by rewrite (bind_raise _ _ _ _ _ (H3 _))].
  rewrite !(bind_ok _ _ _ _ _ (H3 _)). cbv zeta.
  intros Hrun.
  destruct (persist_again _ _ _ _ _
              (trace (after (after (after s1 ev1) ev2) ev3)) Hrun) as [t' Hagain].
  exists (mkState t' (fs s1)). split; [|done]. exact Hagain.
Qed.

Lemma fetch_full_anime_again_witness :
  exists s2,
    fetch_full_anime w_sample (JInt 1) (JStr "Cowboy Bebop")
      (fetch_full_anime w_sample (JInt 1) (JStr "Cowboy Bebop") s0).2 = (Ok tt, s2)
    /\ fs s2 = fs (fetch_full_anime w_sample (JInt 1) (JStr "Cowboy Bebop") s0).2.
Proof.
  apply (fetch_full_anime_again w_sample (JInt 1) (JStr "Cowboy Bebop") s0).
  - intros url n n'. reflexivity.
  - vm_compute. reflexivity.
Defined.

(** ** When the episode site is down *)

Lemma all_dirs_no_file_on m todo : forall base,
  all_dirs m base todo = true -> no_file_on m base todo = true.
Proof.
  induction todo as [|c rest IH]; intros base Hall; cbn [all_dirs no_file_on] in *; [done|].
  apply andb_true_iff in Hall as [Hc Hrest]. rewrite (IH _ Hrest), andb_true_r.
  unfold is_dir in Hc. destruct (is_root (base ++ [c])); [|cbn in Hc].
  - by destruct (m !! (base ++ [c])) as [[|content]|].
  - by destruct (m !! (base ++ [c])) as [[|content]|].
Qed.




